(** * Query-assist routes: generate-PPL and summarize handlers

    A shallow embedding of [server/routes/query_assist/routes.ts]:
    the two POST handlers registered by [registerQueryAssistRoutes], the
    string operations they apply to the agent output, and the calls they
    issue to the OpenSearch client. *)

From Stdlib Require Import List String Ascii Bool NArith ZArith Arith Lia.
Import ListNotations.

Local Open Scope N_scope.

(** ** JavaScript strings

    A JavaScript string is a sequence of UTF-16 code units. *)

Definition jsstring := list N.

(** The code units of an ASCII literal. *)
Definition js (s : string) : jsstring :=
  map N_of_ascii (list_ascii_of_string s).

Definition DQUOTE : N := 34.
Definition BACKSLASH : N := 92.
Definition BACKTICK : N := 96.
Definition CR : N := 13.
Definition LF : N := 10.
Definition SPACE : N := 32.

Fixpoint jsstring_eqb (a b : jsstring) : bool :=
  match a, b with
  | [], [] => true
  | x :: a', y :: b' => (x =? y) && jsstring_eqb a' b'
  | _, _ => false
  end.

(** [strip_prefix p s] is the rest of [s] after the literal [p], when [s]
    starts with [p]. *)
Fixpoint strip_prefix (p s : jsstring) : option jsstring :=
  match p with
  | [] => Some s
  | x :: p' =>
      match s with
      | y :: s' => if x =? y then strip_prefix p' s' else None
      | [] => None
      end
  end.

(** *** Character classes of the regular expressions and of [trim] *)

(** [\w]: the ASCII letters, digits and underscore. *)
Definition is_word_char (c : N) : bool :=
  ((65 <=? c) && (c <=? 90)) || ((97 <=? c) && (c <=? 122))
  || ((48 <=? c) && (c <=? 57)) || (c =? 95).

(** LineTerminator: LF, CR, U+2028, U+2029. *)
Definition is_line_terminator (c : N) : bool :=
  (c =? 10) || (c =? 13) || (c =? 8232) || (c =? 8233).

(** WhiteSpace: TAB, VT, FF, SP, NBSP, ZWNBSP and the space separators. *)
Definition is_white_space (c : N) : bool :=
  (c =? 9) || (c =? 11) || (c =? 12) || (c =? 32) || (c =? 160)
  || (c =? 5760) || ((8192 <=? c) && (c <=? 8202))
  || (c =? 8239) || (c =? 8287) || (c =? 12288) || (c =? 65279).

(** What [String.prototype.trim] strips. *)
Definition is_trimmable (c : N) : bool :=
  is_white_space c || is_line_terminator c.

(** [[\r\n]] *)
Definition is_cr_or_lf (c : N) : bool := (c =? 13) || (c =? 10).

(** [.] without the [s] flag: anything but a line terminator. *)
Definition is_dot (c : N) : bool := negb (is_line_terminator c).

(** *** [String.prototype.trim] *)

Fixpoint trimStart (s : jsstring) : jsstring :=
  match s with
  | c :: s' => if is_trimmable c then trimStart s' else s
  | [] => []
  end.

Definition trimEnd (s : jsstring) : jsstring := rev (trimStart (rev s)).

Definition trim (s : jsstring) : jsstring := trimEnd (trimStart s).

(** ** Regular expressions with the [g] flag

    A regular expression is embedded as its matcher at one position: given
    the code unit before the position ([None] at the start of the string)
    and the rest of the string from the position on, the matcher answers
    with [Some (k, m)] when the expression matches there, the match being
    [S k] code units long and [m] the match array: the matched text, then
    the capture groups.  None of the expressions of the routes matches the
    empty string. *)

Definition RegExp := option N -> jsstring -> option (nat * list jsstring).

(** [s.replace(re, rep)] for a global [re] and a replacement text without
    [$] patterns: the string is scanned from the left, every match is
    replaced and the scan resumes after the match.  [skip] counts the code
    units of the current match that are still to be passed over. *)
Fixpoint replace_from (re : RegExp) (rep : jsstring)
    (prev : option N) (skip : nat) (s : jsstring) : jsstring :=
  match s with
  | [] => []
  | c :: s' =>
      match skip with
      | S k => replace_from re rep (Some c) k s'
      | O =>
          match re prev s with
          | Some (k, _) => rep ++ replace_from re rep (Some c) k s'
          | None => c :: replace_from re rep (Some c) 0 s'
          end
      end
  end.

Definition replace (re : RegExp) (rep : jsstring) (s : jsstring) : jsstring :=
  replace_from re rep None 0 s.

(** [Array.from(s.matchAll(re))]: the match arrays of the successive
    matches, in order. *)
Fixpoint matchAll_from (re : RegExp)
    (prev : option N) (skip : nat) (s : jsstring) : list (list jsstring) :=
  match s with
  | [] => []
  | c :: s' =>
      match skip with
      | S k => matchAll_from re (Some c) k s'
      | O =>
          match re prev s with
          | Some (k, m) => m :: matchAll_from re (Some c) k s'
          | None => matchAll_from re (Some c) 0 s'
          end
      end
  end.

Definition matchAll (re : RegExp) (s : jsstring) : list (list jsstring) :=
  matchAll_from re None 0 s.

(** A literal pattern. *)
Definition re_literal (p : jsstring) : RegExp :=
  fun _ s =>
    match strip_prefix p s with
    | Some _ => match p with
                | _ :: p' => Some (List.length p', [p])
                | [] => None
                end
    | None => None
    end.

(** [/[\r\n]/g] *)
Definition re_cr_or_lf : RegExp :=
  fun _ s =>
    match s with
    | c :: _ => if is_cr_or_lf c then Some (O, [[c]]) else None
    | [] => None
    end.

(** [/ISNOTNULL/g] *)
Definition re_ISNOTNULL : RegExp := re_literal (js "ISNOTNULL").

(** [/`/g] *)
Definition re_backtick : RegExp := re_literal [BACKTICK].

(** [\b] in front of a word character: the position is a word boundary
    when no word character precedes it. *)
Definition word_boundary_before_word (prev : option N) : bool :=
  match prev with
  | Some c => negb (is_word_char c)
  | None => true
  end.

(** [/\bSPAN\(/g] *)
Definition re_SPAN : RegExp :=
  fun prev s =>
    if word_boundary_before_word prev then re_literal (js "SPAN(") prev s
    else None.

(** The lazy repetition [(.|[\r\n])+?] followed by the closing literal,
    once its first code unit has been taken: the closing literal is tried
    first, and one more code unit is taken only when it fails. *)
Fixpoint lazy_until (close : jsstring) (s : jsstring) : option jsstring :=
  match strip_prefix close s with
  | Some _ => Some []
  | None =>
      match s with
      | c :: s' =>
          if is_dot c || is_cr_or_lf c
          then option_map (cons c) (lazy_until close s')
          else None
      | [] => None
      end
  end.

(** [/<question>((.|[\r\n])+?)<\/question>/g]; group 1 is the text between
    the tags, group 2 the last code unit of that text. *)
Definition re_question : RegExp :=
  fun _ s =>
    match strip_prefix (js "<question>") s with
    | Some (c :: r) =>
        if is_dot c || is_cr_or_lf c then
          match lazy_until (js "</question>") r with
          | Some t =>
              let inner := c :: t in
              Some ((9 + List.length inner + 11)%nat,
                    [js "<question>" ++ inner ++ js "</question>";
                     inner; [last inner c]])
          | None => None
          end
        else None
    | _ => None
    end.

(** ** The clean-up of the generated query (lines 85-90) *)

Definition normalize_ppl (ppl : jsstring) : jsstring :=
  replace re_SPAN (js "span(")
    (replace re_backtick []
       (replace re_ISNOTNULL (js "isnotnull")
          (trim (replace re_cr_or_lf [SPACE] ppl)))).

(** ** JSON values

    The value of a number is never inspected by the routes, so a number is
    kept as its source text. *)

#[warnings="-register-all"]
Inductive json : Type :=
| JNull
| JBool (b : bool)
| JNumber (lexeme : jsstring)
| JString (s : jsstring)
| JArray (items : list json)
| JObject (members : list (jsstring * json)).

(** Property lookup on the members of an object. *)
Fixpoint get_member (k : jsstring) (ms : list (jsstring * json)) : option json :=
  match ms with
  | [] => None
  | (k', v) :: ms' => if jsstring_eqb k k' then Some v else get_member k ms'
  end.

(** Property definition: a key that is already there keeps its place and
    takes the new value. *)
Fixpoint set_member (k : jsstring) (v : json) (ms : list (jsstring * json))
  : list (jsstring * json) :=
  match ms with
  | [] => [(k, v)]
  | (k', v') :: ms' =>
      if jsstring_eqb k k' then (k, v) :: ms' else (k', v') :: set_member k v ms'
  end.

(** *** [JSON.parse] *)

Definition is_json_ws (c : N) : bool :=
  (c =? 9) || (c =? 10) || (c =? 13) || (c =? 32).

Fixpoint skip_ws (s : jsstring) : jsstring :=
  match s with
  | c :: s' => if is_json_ws c then skip_ws s' else s
  | [] => []
  end.

Definition is_digit (c : N) : bool := (48 <=? c) && (c <=? 57).

Definition hex_value (c : N) : option N :=
  if is_digit c then Some (c - 48)
  else if (97 <=? c) && (c <=? 102) then Some (c - 87)
  else if (65 <=? c) && (c <=? 70) then Some (c - 55)
  else None.

Definition hex4 (a b c d : N) : option N :=
  match hex_value a, hex_value b, hex_value c, hex_value d with
  | Some x, Some y, Some z, Some w => Some (((x * 16 + y) * 16 + z) * 16 + w)
  | _, _, _, _ => None
  end.

(** The code unit of a two-character escape. *)
Definition simple_escape (e : N) : option N :=
  if e =? 34 then Some 34          (* quotation mark *)
  else if e =? 92 then Some 92     (* reverse solidus *)
  else if e =? 47 then Some 47     (* solidus *)
  else if e =? 98 then Some 8      (* b: backspace *)
  else if e =? 102 then Some 12    (* f: form feed *)
  else if e =? 110 then Some 10    (* n: line feed *)
  else if e =? 114 then Some 13    (* r: carriage return *)
  else if e =? 116 then Some 9     (* t: tab *)
  else None.

Definition cons_unit (c : N) (p : option (jsstring * jsstring))
  : option (jsstring * jsstring) :=
  match p with
  | Some (t, rest) => Some (c :: t, rest)
  | None => None
  end.

(** The characters of a string literal after its opening quote, up to and
    including the closing quote: the decoded string and what follows. *)
Fixpoint parse_string_chars (s : jsstring) : option (jsstring * jsstring) :=
  match s with
  | [] => None
  | c :: r =>
      if c =? DQUOTE then Some ([], r)
      else if c =? BACKSLASH then
        match r with
        | [] => None
        | e :: r1 =>
            if e =? 117 then
              match r1 with
              | h1 :: h2 :: h3 :: h4 :: r2 =>
                  match hex4 h1 h2 h3 h4 with
                  | Some u => cons_unit u (parse_string_chars r2)
                  | None => None
                  end
              | _ => None
              end
            else
              match simple_escape e with
              | Some u => cons_unit u (parse_string_chars r1)
              | None => None
              end
        end
      else if c <? 32 then None
      else cons_unit c (parse_string_chars r)
  end.

Fixpoint take_digits (s : jsstring) : jsstring * jsstring :=
  match s with
  | c :: s' =>
      if is_digit c then let (ds, r) := take_digits s' in (c :: ds, r)
      else ([], s)
  | [] => ([], [])
  end.

(** A number: an optional minus sign; a zero, or a non-zero digit and any
    digits; optionally a point and one digit or more; optionally an [e] or
    [E], an optional sign and one digit or more. *)
Definition parse_number (s : jsstring) : option (jsstring * jsstring) :=
  let (sign, s1) :=
    match s with
    | c :: r => if c =? 45 then ([c], r) else ([], s)
    | [] => ([], s)
    end in
  let int_part :=
    match s1 with
    | c :: r =>
        if c =? 48 then Some ([c], r)
        else if is_digit c then Some (take_digits s1)
        else None
    | [] => None
    end in
  match int_part with
  | None => None
  | Some (int, s2) =>
      let frac_part :=
        match s2 with
        | c :: r =>
            if c =? 46 then
              match take_digits r with
              | ([], _) => None
              | (ds, r') => Some (c :: ds, r')
              end
            else Some ([], s2)
        | [] => Some ([], s2)
        end in
      match frac_part with
      | None => None
      | Some (frac, s3) =>
          let exp_part :=
            match s3 with
            | c :: r =>
                if (c =? 101) || (c =? 69) then
                  let (esign, r1) :=
                    match r with
                    | d :: r' =>
                        if (d =? 43) || (d =? 45) then ([d], r') else ([], r)
                    | [] => ([], r)
                    end in
                  match take_digits r1 with
                  | ([], _) => None
                  | (ds, r') => Some (c :: esign ++ ds, r')
                  end
                else Some ([], s3)
            | [] => Some ([], s3)
            end in
          match exp_part with
          | None => None
          | Some (ex, s4) => Some (sign ++ int ++ frac ++ ex, s4)
          end
      end
  end.

(** The answer of a sub-parser: a value and the unread text, a syntax
    error, or the recursion budget used up. *)
Inductive parsed (A : Type) : Type :=
| Parsed (a : A) (rest : jsstring)
| Unexpected
| Exhausted.
Arguments Parsed {A} a rest.
Arguments Unexpected {A}.
Arguments Exhausted {A}.

Definition starts_with (c : N) (s : jsstring) : option jsstring :=
  match s with
  | d :: r => if c =? d then Some r else None
  | [] => None
  end.

Fixpoint parse_value (fuel : nat) (s : jsstring) : parsed json :=
  match fuel with
  | O => Exhausted
  | S fuel' =>
      match skip_ws s with
      | [] => Unexpected
      | c :: r =>
          if c =? 123 then                       (* { *)
            match starts_with 125 (skip_ws r) with
            | Some r' => Parsed (JObject []) r'
            | None => parse_members fuel' r []
            end
          else if c =? 91 then                   (* [ *)
            match starts_with 93 (skip_ws r) with
            | Some r' => Parsed (JArray []) r'
            | None => parse_elements fuel' r []
            end
          else if c =? DQUOTE then
            match parse_string_chars r with
            | Some (t, r') => Parsed (JString t) r'
            | None => Unexpected
            end
          else
            match strip_prefix (js "true") (c :: r) with
            | Some r' => Parsed (JBool true) r'
            | None =>
            match strip_prefix (js "false") (c :: r) with
            | Some r' => Parsed (JBool false) r'
            | None =>
            match strip_prefix (js "null") (c :: r) with
            | Some r' => Parsed JNull r'
            | None =>
            match parse_number (c :: r) with
            | Some (n, r') => Parsed (JNumber n) r'
            | None => Unexpected
            end end end end
      end
  end

with parse_elements (fuel : nat) (s : jsstring) (acc : list json) : parsed json :=
  match fuel with
  | O => Exhausted
  | S fuel' =>
      match parse_value fuel' s with
      | Parsed v r =>
          match skip_ws r with
          | c :: r' =>
              if c =? 44 then parse_elements fuel' r' (acc ++ [v])
              else if c =? 93 then Parsed (JArray (acc ++ [v])) r'
              else Unexpected
          | [] => Unexpected
          end
      | Unexpected => Unexpected
      | Exhausted => Exhausted
      end
  end

with parse_members (fuel : nat) (s : jsstring) (acc : list (jsstring * json))
  : parsed json :=
  match fuel with
  | O => Exhausted
  | S fuel' =>
      match starts_with DQUOTE (skip_ws s) with
      | None => Unexpected
      | Some r =>
          match parse_string_chars r with
          | None => Unexpected
          | Some (k, r1) =>
              match starts_with 58 (skip_ws r1) with
              | None => Unexpected
              | Some r2 =>
                  match parse_value fuel' r2 with
                  | Parsed v r3 =>
                      match skip_ws r3 with
                      | c :: r4 =>
                          if c =? 44 then parse_members fuel' r4 (set_member k v acc)
                          else if c =? 125 then Parsed (JObject (set_member k v acc)) r4
                          else Unexpected
                      | [] => Unexpected
                      end
                  | Unexpected => Unexpected
                  | Exhausted => Exhausted
                  end
              end
          end
      end
  end.

(** The whole text must be one value between optional white space.  The
    budget is enough for every text ([parse_value_budget] below). *)
Definition parse_text (s : jsstring) : parsed json :=
  match parse_value (2 * List.length s + 1) s with
  | Parsed v r => match skip_ws r with
                  | [] => Parsed v []
                  | _ :: _ => Unexpected
                  end
  | Unexpected => Unexpected
  | Exhausted => Exhausted
  end.

(** *** [JSON.stringify] of a string *)

Definition hex_digit (n : N) : N := if n <? 10 then 48 + n else 87 + n.

(** [\uXXXX], in lower-case hexadecimal. *)
Definition unicode_escape (c : N) : jsstring :=
  [BACKSLASH; 117; hex_digit ((c / 4096) mod 16); hex_digit ((c / 256) mod 16);
   hex_digit ((c / 16) mod 16); hex_digit (c mod 16)].

Definition is_high_surrogate (c : N) : bool := (55296 <=? c) && (c <=? 56319).
Definition is_low_surrogate (c : N) : bool := (56320 <=? c) && (c <=? 57343).

Fixpoint quote_chars (s : jsstring) : jsstring :=
  match s with
  | [] => []
  | c :: r =>
      if c =? 8 then BACKSLASH :: 98 :: quote_chars r
      else if c =? 9 then BACKSLASH :: 116 :: quote_chars r
      else if c =? 10 then BACKSLASH :: 110 :: quote_chars r
      else if c =? 12 then BACKSLASH :: 102 :: quote_chars r
      else if c =? 13 then BACKSLASH :: 114 :: quote_chars r
      else if c =? DQUOTE then BACKSLASH :: DQUOTE :: quote_chars r
      else if c =? BACKSLASH then BACKSLASH :: BACKSLASH :: quote_chars r
      else if c <? 32 then unicode_escape c ++ quote_chars r
      else if is_high_surrogate c then
        match r with
        | d :: r' =>
            if is_low_surrogate d then c :: d :: quote_chars r'
            else unicode_escape c ++ quote_chars r
        | [] => unicode_escape c ++ quote_chars r
        end
      else if is_low_surrogate c then unicode_escape c ++ quote_chars r
      else c :: quote_chars r
  end.

(** [JSON.stringify(s)] for a string [s]. *)
Definition JSON_stringify (s : jsstring) : jsstring :=
  DQUOTE :: quote_chars s ++ [DQUOTE].

(** ** Errors, outcomes and the calls to the OpenSearch client *)

(** What a [catch] clause reads from the value it catches: the
    [statusCode] property ([None] for [undefined]) and the [message]. *)
Record JsError : Type := {
  statusCode : option Z;
  message : jsstring
}.

(** [new Error(msg)] *)
Definition new_Error (msg : jsstring) : JsError :=
  {| statusCode := None; message := msg |}.

(** The errors raised by the language itself; their messages are chosen by
    the JavaScript engine. *)
Inductive TypeErrorKind : Type :=
| ReadPropertyOfUndefined (prop : string)
| ReadPropertyOfNull (prop : string)
| NotAFunction (callee : string).

Inductive Outcome (A : Type) : Type :=
| Returned (a : A)
| Thrown (e : JsError).
Arguments Returned {A} a.
Arguments Thrown {A} e.

(** The argument objects of [client.transport.request].  A parameter whose
    value is [None] is [undefined]. *)
Record TransportRequestParams : Type := {
  method : jsstring;
  path : jsstring;
  parameters : list (string * option jsstring)
}.

Record TransportRequestOptions : Type := {
  requestTimeout : Z;
  maxRetries : Z
}.

Definition AGENT_REQUEST_OPTIONS : TransportRequestOptions :=
  {| requestTimeout := 5 * 60 * 1000; maxRetries := 0 |}.

(** The body of an [AgentResponse]. *)
Record AgentOutput : Type := {
  name : jsstring;
  result : option jsstring
}.

Record InferenceResult : Type := {
  output : list AgentOutput
}.

Record AgentResponseBody : Type := {
  inference_results : list InferenceResult
}.

(** One call to the client, as recorded in the order of issue. *)
Inductive Call : Type :=
| TransportRequest (params : TransportRequestParams) (options : TransportRequestOptions)
| IndicesGetMapping (index : jsstring)
| Search (index : jsstring) (size : Z).


(** A computation that issues calls and then returns or throws. *)
Definition M (A : Type) : Type := list Call -> Outcome A * list Call.

Definition ret {A} (a : A) : M A := fun log => (Returned a, log).

Definition throw {A} (e : JsError) : M A := fun log => (Thrown e, log).

Definition bind {A B} (m : M A) (k : A -> M B) : M B :=
  fun log =>
    match m log with
    | (Returned a, log') => k a log'
    | (Thrown e, log') => (Thrown e, log')
    end.

Definition try_catch {A} (m : M A) (handler : JsError -> M A) : M A :=
  fun log =>
    match m log with
    | (Returned a, log') => (Returned a, log')
    | (Thrown e, log') => handler e log'
    end.

(** An expression that issues no call. *)
Definition lift {A} (o : Outcome A) : M A := fun log => (o, log).

(** Issue [call]; the client settles it with [o]. *)
Definition issue {A} (call : Call) (o : Outcome A) : M A :=
  fun log => (o, log ++ [call]).

Notation "x <- m ;; k" := (bind m (fun x => k))
  (at level 61, m at next level, right associativity).

(** [await Promise.all([a, b])]: both calls are issued, in this order,
    before either is awaited.  When both reject, the rejection that settles
    first wins; [left_first] says which. *)
Definition Promise_all2 {A B} (left_first : bool) (a : M A) (b : M B) : M (A * B) :=
  fun log =>
    let (oa, log1) := a log in
    let (ob, log2) := b log1 in
    (match oa, ob with
     | Returned x, Returned y => Returned (x, y)
     | Thrown e, Returned _ => Thrown e
     | Returned _, Thrown e => Thrown e
     | Thrown e1, Thrown e2 => Thrown (if left_first then e1 else e2)
     end, log2).

(** ** Responses *)

Inductive Payload : Type :=
| Text (body : jsstring)
| SummaryBody (summary : jsstring) (suggestedQuestions : list jsstring).

Record Response : Type := {
  res_statusCode : Z;
  res_body : Payload
}.

Definition response_ok (body : Payload) : Response :=
  {| res_statusCode := 200; res_body := body |}.

Definition response_custom (code : Z) (body : jsstring) : Response :=
  {| res_statusCode := code; res_body := Text body |}.

(** ** Request bodies and their schemas *)

Record GeneratePplBody : Type := {
  gen_index : jsstring;
  gen_question : jsstring
}.

Record SummarizeBody : Type := {
  sum_index : jsstring;
  sum_question : jsstring;
  sum_query : option jsstring;
  sum_response : jsstring;
  sum_isError : bool
}.

(** [schema.string()] *)
Definition schema_string (v : option json) : option jsstring :=
  match v with
  | Some (JString s) => Some s
  | _ => None
  end.

(** [schema.maybe(schema.string())] *)
Definition schema_maybe_string (v : option json) : option (option jsstring) :=
  match v with
  | None => Some None
  | Some (JString s) => Some (Some s)
  | Some _ => None
  end.

(** [schema.boolean()] *)
Definition schema_boolean (v : option json) : option bool :=
  match v with
  | Some (JBool b) => Some b
  | _ => None
  end.

Definition known_keys (keys : list string) (ms : list (jsstring * json)) : bool :=
  forallb (fun kv => existsb (fun k => jsstring_eqb (fst kv) (js k)) keys) ms.

(** The [validate.body] schema of the generate route: an object with the
    declared keys only. *)
Definition validate_generate_ppl (body : json) : option GeneratePplBody :=
  match body with
  | JObject ms =>
      if known_keys ["index"; "question"]%string ms then
        match schema_string (get_member (js "index") ms),
              schema_string (get_member (js "question") ms) with
        | Some i, Some q => Some {| gen_index := i; gen_question := q |}
        | _, _ => None
        end
      else None
  | _ => None
  end.

(** The [validate.body] schema of the summarize route. *)
Definition validate_summarize (body : json) : option SummarizeBody :=
  match body with
  | JObject ms =>
      if known_keys ["index"; "question"; "query"; "response"; "isError"]%string ms then
        match schema_string (get_member (js "index") ms),
              schema_string (get_member (js "question") ms),
              schema_maybe_string (get_member (js "query") ms),
              schema_string (get_member (js "response") ms),
              schema_boolean (get_member (js "isError") ms) with
        | Some i, Some q, Some qy, Some r, Some e =>
            Some {| sum_index := i; sum_question := q; sum_query := qy;
                    sum_response := r; sum_isError := e |}
        | _, _, _, _, _ => None
        end
      else None
  | _ => None
  end.

(** ** Truthiness *)

(** [!s] for a string or [undefined]. *)
Definition falsy_string (s : option jsstring) : bool :=
  match s with
  | None => true
  | Some [] => true
  | Some (_ :: _) => false
  end.

(** [a || b] for a number or [undefined] on the left. *)
Definition number_or (a : option Z) (b : Z) : Z :=
  match a with
  | Some n => if Z.eqb n 0 then b else n
  | None => b
  end.

(** [a || ''] for a string or [undefined] on the left. *)
Definition string_or_empty (a : option jsstring) : jsstring :=
  match a with
  | Some s => s
  | None => []
  end.

(** ** The routes *)

Record QueryAssistConfig : Type := {
  ppl_agent_id : option jsstring;
  response_summary_agent_id : option jsstring;
  error_summary_agent_id : option jsstring
}.

Section registerQueryAssistRoutes.

(** The constant of [common/constants/query_assist]. *)
Variable ML_COMMONS_API_PREFIX : jsstring.

(** The responses of [client.indices.getMapping] and [client.search],
    and the helper of [common/helpers/query_assist] that turns them into
    the field context; the helper may throw. *)
Variables Mappings SearchResponse : Type.
Variable generateFieldContext : Mappings -> SearchResponse -> Outcome jsstring.

(** The messages the engine gives to its own errors. *)
Variable TypeError_message : TypeErrorKind -> jsstring.
Variable SyntaxError_message : jsstring -> jsstring.

Definition TypeError (k : TypeErrorKind) : JsError :=
  new_Error (TypeError_message k).

Definition SyntaxError (text : jsstring) : JsError :=
  new_Error (SyntaxError_message text).

(** [context.core.opensearch.client.asCurrentUser]: how the cluster
    settles each call. *)
Record OpenSearchClient : Type := {
  transport_request :
    TransportRequestParams -> TransportRequestOptions -> Outcome AgentResponseBody;
  indices_getMapping : jsstring -> Outcome Mappings;
  search : jsstring -> Z -> Outcome SearchResponse;
  mapping_settles_first : bool
}.

Definition call_transport_request (client : OpenSearchClient)
    (params : TransportRequestParams) (options : TransportRequestOptions)
  : M AgentResponseBody :=
  issue (TransportRequest params options) (transport_request client params options).

Definition call_indices_getMapping (client : OpenSearchClient) (index : jsstring)
  : M Mappings :=
  issue (IndicesGetMapping index) (indices_getMapping client index).

Definition call_search (client : OpenSearchClient) (index : jsstring) (size : Z)
  : M SearchResponse :=
  issue (Search index size) (search client index size).

(** [JSON.parse(text)] *)
Definition JSON_parse (text : jsstring) : Outcome json :=
  match parse_text text with
  | Parsed v _ => Returned v
  | _ => Thrown (SyntaxError text)
  end.

(** [a[i].prop] for an array [a]: reading [prop] of a missing element
    throws. *)
Definition element_for {A} (prop : string) (a : list A) (i : nat) : Outcome A :=
  match nth_error a i with
  | Some x => Returned x
  | None => Thrown (TypeError (ReadPropertyOfUndefined prop))
  end.

(** [body.inference_results[0].output[0].result] *)
Definition first_result (body : AgentResponseBody) : Outcome (option jsstring) :=
  match element_for "output" (inference_results body) 0 with
  | Returned ir =>
      match element_for "result" (output ir) 0 with
      | Returned o => Returned (result o)
      | Thrown e => Thrown e
      end
  | Thrown e => Thrown e
  end.

(** [body.inference_results[0].output[1]?.result] *)
Definition second_result (body : AgentResponseBody) : Outcome (option jsstring) :=
  match element_for "output" (inference_results body) 0 with
  | Returned ir =>
      match nth_error (output ir) 1 with
      | Some o => Returned (result o)
      | None => Returned None
      end
  | Thrown e => Thrown e
  end.

(** [result.ppl.replace]: the receiver of the first [replace] must be a
    string. *)
Definition ppl_of (parsed_result : json) : Outcome jsstring :=
  match parsed_result with
  | JNull => Thrown (TypeError (ReadPropertyOfNull "ppl"))
  | JObject ms =>
      match get_member (js "ppl") ms with
      | Some (JString s) => Returned s
      | Some JNull => Thrown (TypeError (ReadPropertyOfNull "replace"))
      | Some _ => Thrown (TypeError (NotAFunction "result.ppl.replace"))
      | None => Thrown (TypeError (ReadPropertyOfUndefined "replace"))
      end
  | _ => Thrown (TypeError (ReadPropertyOfUndefined "replace"))
  end.

Definition agent_execute_path (agentId : jsstring) : jsstring :=
  ML_COMMONS_API_PREFIX ++ js "/agents/" ++ agentId ++ js "/_execute".

Definition POST : jsstring := js "POST".

Definition PPL_AGENT_NOT_FOUND : jsstring :=
  js "PPL agent not found in opensearch_dashboards.yml. Expected observability.query_assist.ppl_agent_id".

Definition SUMMARY_AGENT_NOT_FOUND : jsstring :=
  js "Summary agent not found in opensearch_dashboards.yml. Expected observability.query_assist.response_summary_agent_id and observability.query_assist.error_summary_agent_id".

(** The [catch] clause of both handlers. *)
Definition catch_clause (error : JsError) : M Response :=
  ret (response_custom (number_or (statusCode error) 500) (message error)).

Variable config : QueryAssistConfig.

(** The request to the PPL agent (lines 66-78). *)
Definition ppl_request_params (request : GeneratePplBody) : TransportRequestParams :=
  {| method := POST;
     path := agent_execute_path (string_or_empty (ppl_agent_id config));
     parameters := [("index", Some (gen_index request));
                    ("question", Some (gen_question request))]%string |}.

(** The [try] block of the generate handler (lines 66-91). *)
Definition generate_ppl_try (client : OpenSearchClient) (request : GeneratePplBody)
  : M Response :=
  pplRequest <- call_transport_request client (ppl_request_params request)
                  AGENT_REQUEST_OPTIONS ;;
  r <- lift (first_result pplRequest) ;;
  if falsy_string r then throw (new_Error (js "Generated PPL query not found."))
  else
    parsed_result <- lift (JSON_parse (string_or_empty r)) ;;
    ppl <- lift (ppl_of parsed_result) ;;
    ret (response_ok (Text (normalize_ppl ppl))).

(** The handler of [QUERY_ASSIST_API.GENERATE_PPL] (lines 52-98). *)
Definition generate_ppl_handler (client : OpenSearchClient) (request : GeneratePplBody)
  : M Response :=
  if falsy_string (ppl_agent_id config) then
    ret (response_custom 400 PPL_AGENT_NOT_FOUND)
  else
    try_catch (generate_ppl_try client request) catch_clause.

(** The suggestions of lines 161-165: [m[1]] of every match. *)
Definition extract_questions (text : jsstring) : list jsstring :=
  map (fun m => nth 1 m []) (matchAll re_question text).

(** The parameters sent to the two summary agents (lines 137 and 153). *)
Definition response_summary_params (request : SummarizeBody) : TransportRequestParams :=
  {| method := POST;
     path := agent_execute_path (string_or_empty (response_summary_agent_id config));
     parameters := [("index", Some (sum_index request));
                    ("question", Some (sum_question request));
                    ("query", sum_query request);
                    ("response", Some (JSON_stringify (sum_response request)))]%string |}.

Definition error_summary_params (request : SummarizeBody) (fields : jsstring)
  : TransportRequestParams :=
  {| method := POST;
     path := agent_execute_path (string_or_empty (error_summary_agent_id config));
     parameters := [("index", Some (sum_index request));
                    ("question", Some (sum_question request));
                    ("query", sum_query request);
                    ("response", Some (JSON_stringify (sum_response request)));
                    ("fields", Some fields)]%string |}.

(** The two branches on [isError] (lines 131-158). *)
Definition summary_request (client : OpenSearchClient) (request : SummarizeBody)
  : M AgentResponseBody :=
  if negb (sum_isError request) then
    call_transport_request client (response_summary_params request)
      AGENT_REQUEST_OPTIONS
  else
    both <- Promise_all2 (mapping_settles_first client)
              (call_indices_getMapping client (sum_index request))
              (call_search client (sum_index request) 1) ;;
    fields <- lift (generateFieldContext (fst both) (snd both)) ;;
    call_transport_request client (error_summary_params request fields)
      AGENT_REQUEST_OPTIONS.

(** The [try] block of the summarize handler (lines 131-171). *)
Definition summarize_try (client : OpenSearchClient) (request : SummarizeBody)
  : M Response :=
  summaryRequest <- summary_request client request ;;
  summary <- lift (first_result summaryRequest) ;;
  if falsy_string summary then throw (new_Error (js "Generated summary not found."))
  else
    second <- lift (second_result summaryRequest) ;;
    ret (response_ok
           (SummaryBody (string_or_empty summary)
              (extract_questions (string_or_empty second)))).

(** The handler of [QUERY_ASSIST_API.SUMMARIZE] (lines 114-178). *)
Definition summarize_handler (client : OpenSearchClient) (request : SummarizeBody)
  : M Response :=
  if falsy_string (response_summary_agent_id config)
     || falsy_string (error_summary_agent_id config) then
    ret (response_custom 400 SUMMARY_AGENT_NOT_FOUND)
  else
    try_catch (summarize_try client request) catch_clause.

End registerQueryAssistRoutes.

Arguments transport_request {Mappings SearchResponse}.
Arguments indices_getMapping {Mappings SearchResponse}.
Arguments search {Mappings SearchResponse}.
Arguments mapping_settles_first {Mappings SearchResponse}.
Arguments generate_ppl_try ML_COMMONS_API_PREFIX {Mappings SearchResponse}.
Arguments generate_ppl_handler ML_COMMONS_API_PREFIX {Mappings SearchResponse}.
Arguments summary_request ML_COMMONS_API_PREFIX {Mappings SearchResponse}.
Arguments summarize_try ML_COMMONS_API_PREFIX {Mappings SearchResponse}.
Arguments summarize_handler ML_COMMONS_API_PREFIX {Mappings SearchResponse}.

(** * Vocabulary of the statements *)

(** The value of the parameter [k] of a request to an agent. *)
Fixpoint get_parameter (k : string) (ps : list (string * option jsstring))
  : option (option jsstring) :=
  match ps with
  | [] => None
  | (k', v) :: ps' => if String.eqb k k' then Some v else get_parameter k ps'
  end.


(** The code unit before the position reached after [x]. *)
Definition prev_after (prev : option N) (x : jsstring) : option N :=
  fold_left (fun _ c => Some c) x prev.

(** A matcher that does not look behind. *)
Definition context_free (re : RegExp) : Prop :=
  forall prev prev' s, re prev s = re prev' s.

Definition ISNOTNULL : jsstring := Eval cbv in js "ISNOTNULL".
Definition isnotnull : jsstring := Eval cbv in js "isnotnull".
Definition SPAN_paren : jsstring := Eval cbv in js "SPAN(".
Definition span_paren : jsstring := Eval cbv in js "span(".

Definition not_backtick (c : N) : bool := negb (c =? BACKTICK).

(** What [replace(/\bSPAN\(/g, 'span(')] may do to one code unit: keep it,
    or lower one of the letters S, P, A, N. *)
Definition span_lowered (c d : N) : Prop :=
  d = c \/ (d = c + 32 /\ (c = 83 \/ c = 80 \/ c = 65 \/ c = 78)).

(** [p] occurs in [s]. *)
Definition occurs (p s : jsstring) : Prop :=
  exists a b, s = a ++ p ++ b.

(** The same, decided. *)
Fixpoint occursb (p s : jsstring) : bool :=
  match strip_prefix p s with
  | Some _ => true
  | None =>
      match s with
      | [] => false
      | _ :: s' => occursb p s'
      end
  end.




(** ** A stubbed cluster

    A client whose agent answers every request in the same way, over an
    index whose mapping and sample are trivial; used to run the handlers
    on concrete requests. *)

Definition stub_client (agent : Outcome AgentResponseBody) : OpenSearchClient unit unit :=
  {| transport_request := fun _ _ => agent;
     indices_getMapping := fun _ => Returned tt;
     search := fun _ _ => Returned tt;
     mapping_settles_first := true |}.

Definition stub_output (r : option jsstring) : AgentOutput :=
  {| name := js "response"; result := r |}.

(** An envelope with one inference result and the given outputs. *)
Definition envelope (results : list (option jsstring)) : AgentResponseBody :=
  {| inference_results := [ {| output := map stub_output results |} ] |}.

Definition stub_prefix : jsstring := js "/_plugins/_ml".

Definition stub_generateFieldContext (_ _ : unit) : Outcome jsstring :=
  Returned (js "- message: text (hello)").

Definition stub_TypeError_message (k : TypeErrorKind) : jsstring :=
  match k with
  | ReadPropertyOfUndefined prop =>
      js "Cannot read properties of undefined (reading '" ++ js prop ++ js "')"
  | ReadPropertyOfNull prop =>
      js "Cannot read properties of null (reading '" ++ js prop ++ js "')"
  | NotAFunction callee => js callee ++ js " is not a function"
  end.

Definition stub_SyntaxError_message (_ : jsstring) : jsstring :=
  js "Unexpected token in JSON".

Definition stub_config : QueryAssistConfig :=
  {| ppl_agent_id := Some (js "ppl-agent");
     response_summary_agent_id := Some (js "response-agent");
     error_summary_agent_id := Some (js "error-agent") |}.

Definition stub_generate_body : GeneratePplBody :=
  {| gen_index := js "logs"; gen_question := js "how many errors?" |}.

Definition stub_summarize_body (isError : bool) : SummarizeBody :=
  {| sum_index := js "logs"; sum_question := js "how many errors?";
     sum_query := Some (js "source = logs | stats count()");
     sum_response := js "{}"; sum_isError := isError |}.

(** The generate handler and the summarize handler on the stubbed
    cluster, from an empty record of calls. *)
Definition run_generate (config : QueryAssistConfig) (agent : Outcome AgentResponseBody)
  : Outcome Response * list Call :=
  generate_ppl_handler stub_prefix stub_TypeError_message stub_SyntaxError_message
    config (stub_client agent) stub_generate_body [].

Definition run_summarize (config : QueryAssistConfig) (agent : Outcome AgentResponseBody)
    (isError : bool) : Outcome Response * list Call :=
  summarize_handler stub_prefix stub_generateFieldContext stub_TypeError_message
    config (stub_client agent) (stub_summarize_body isError) [].

(** A JSON text written with ['] for the quotation mark. *)
Definition json_text (s : string) : jsstring :=
  map (fun c => if c =? 39 then DQUOTE else c) (js s).

(** The query of the example: [source], a space, CR, LF, a space, [with] and
    so on. *)
Definition example_ppl : jsstring :=
  js "source " ++ [CR; LF] ++ js " with SPAN(x) and `ticks` and ISNOTNULL(y)".

(** The example as a JSON text, CR and LF written as the escapes of JSON. *)
Definition example_text_escaped : jsstring :=
  json_text "{'ppl': 'source \r\n with SPAN(x) and `ticks` and ISNOTNULL(y)'}".

(** The same text with a raw CR and a raw LF inside the string literal. *)
Definition example_text_raw : jsstring :=
  json_text "{'ppl': 'source " ++ [CR; LF]
  ++ json_text " with SPAN(x) and `ticks` and ISNOTNULL(y)'}".



(** * Properties *)

(** ** Literals and prefixes *)

Lemma strip_prefix_app (p r : jsstring) : strip_prefix p (p ++ r) = Some r.
Proof.
  induction p as [|x p IH]; simpl; [reflexivity|].
  now rewrite N.eqb_refl.
Qed.

Lemma strip_prefix_Some (p : jsstring) :
  forall s r, strip_prefix p s = Some r -> s = p ++ r.
Proof.
  induction p as [|x p IH]; simpl; intros s r H.
  - now inversion H.
  - destruct s as [|y s]; [discriminate|].
    destruct (N.eqb_spec x y) as [->|]; [|discriminate].
    now rewrite (IH _ _ H).
Qed.

Lemma strip_prefix_head (x y : N) (p s : jsstring) :
  x <> y -> strip_prefix (x :: p) (y :: s) = None.
Proof.
  intros H. simpl. now destruct (N.eqb_spec x y).
Qed.


(** ** The scan of [replace] *)

Lemma replace_from_skip (re : RegExp) (rep x : jsstring) :
  forall prev r,
    replace_from re rep prev (List.length x) (x ++ r)
    = replace_from re rep (prev_after prev x) 0 r.
Proof.
  induction x as [|c x IH]; intros prev r; simpl.
  - destruct r; reflexivity.
  - apply IH.
Qed.


Lemma replace_from_context_free (re : RegExp) (rep : jsstring) :
  context_free re ->
  forall s prev prev' k,
    replace_from re rep prev k s = replace_from re rep prev' k s.
Proof.
  intros Hcf. induction s as [|c s IH]; intros prev prev' k; simpl; [reflexivity|].
  destruct k; [|reflexivity].
  now rewrite (Hcf prev prev').
Qed.


Lemma re_literal_context_free (p : jsstring) : context_free (re_literal p).
Proof. intros prev prev' s. reflexivity. Qed.


(** The two unfoldings of a literal replacement. *)
Lemma replace_literal_hit (c : N) (p rep r : jsstring) (prev : option N) :
  replace_from (re_literal (c :: p)) rep prev 0 ((c :: p) ++ r)
  = rep ++ replace_from (re_literal (c :: p)) rep prev 0 r.
Proof.
  change ((c :: p) ++ r) with (c :: (p ++ r)).
  cbn [replace_from]. unfold re_literal at 1.
  change (c :: (p ++ r)) with ((c :: p) ++ r).
  rewrite strip_prefix_app. f_equal.
  rewrite replace_from_skip.
  apply replace_from_context_free, re_literal_context_free.
Qed.

Lemma replace_literal_miss (p rep s : jsstring) (c : N) (prev : option N) :
  strip_prefix p (c :: s) = None ->
  replace_from (re_literal p) rep prev 0 (c :: s)
  = c :: replace_from (re_literal p) rep prev 0 s.
Proof.
  intros H. cbn [replace_from]. unfold re_literal at 1. rewrite H. f_equal.
  apply replace_from_context_free, re_literal_context_free.
Qed.

(** [replace(/[\r\n]/g, ' ')] turns each CR and each LF into one space. *)
Lemma replace_cr_or_lf (s : jsstring) :
  replace re_cr_or_lf [SPACE] s
  = map (fun c => if is_cr_or_lf c then SPACE else c) s.
Proof.
  unfold replace. generalize (@None N).
  induction s as [|c s IH]; intros prev; simpl; [reflexivity|].
  destruct (is_cr_or_lf c); simpl; now rewrite IH.
Qed.

(** [replace(/`/g, '')] drops every backtick. *)
Lemma replace_backtick (s : jsstring) :
  replace re_backtick [] s = filter not_backtick s.
Proof.
  unfold replace. generalize (@None N).
  induction s as [|c s IH]; intros prev; [reflexivity|].
  cbn [filter]. unfold not_backtick at 1.
  destruct (N.eqb_spec c BACKTICK) as [->|Hne]; cbn [negb].
  - unfold re_backtick in *.
    change (BACKTICK :: s) with ([BACKTICK] ++ s).
    rewrite replace_literal_hit. apply IH.
  - unfold re_backtick in *.
    rewrite replace_literal_miss.
    + f_equal. apply IH.
    + apply strip_prefix_head. congruence.
Qed.

(** ** The [ISNOTNULL] step *)

Lemma re_ISNOTNULL_eq : re_ISNOTNULL = re_literal ISNOTNULL.
Proof. reflexivity. Qed.

(** [ISNOTNULL] cannot start inside one of its own occurrences. *)
Lemma ISNOTNULL_unbordered (a r b : jsstring) :
  a <> [] -> (List.length a < 9)%nat ->
  a ++ ISNOTNULL ++ b = ISNOTNULL ++ r -> False.
Proof.
  intros Hne Hlen H.
  destruct a as [|a1 a]; [congruence|].
  do 8 (destruct a as [|? a]; [cbv in H; congruence|]).
  simpl in Hlen. lia.
Qed.

(** Every upper-case occurrence is rewritten, whatever surrounds it. *)
Lemma replace_ISNOTNULL_app (b : jsstring) :
  forall n a prev, (List.length a <= n)%nat ->
    replace_from re_ISNOTNULL isnotnull prev 0 (a ++ ISNOTNULL ++ b)
    = replace_from re_ISNOTNULL isnotnull prev 0 a
      ++ isnotnull ++ replace_from re_ISNOTNULL isnotnull prev 0 b.
Proof.
  rewrite re_ISNOTNULL_eq.
  induction n as [|n IH]; intros a prev Hlen.
  - destruct a; [|simpl in Hlen; lia].
    cbn [app replace_from]. apply (replace_literal_hit 73 (tl ISNOTNULL)).
  - destruct a as [|c a].
    + cbn [app replace_from]. apply (replace_literal_hit 73 (tl ISNOTNULL)).
    + destruct (strip_prefix ISNOTNULL (c :: a)) as [r|] eqn:Hp.
      * apply strip_prefix_Some in Hp. rewrite Hp.
        rewrite <- app_assoc.
        rewrite !(replace_literal_hit 73 (tl ISNOTNULL)).
        rewrite <- app_assoc. f_equal. apply IH.
        apply (f_equal (@List.length N)) in Hp.
        rewrite length_app in Hp. simpl in Hp, Hlen. lia.
      * destruct (strip_prefix ISNOTNULL ((c :: a) ++ ISNOTNULL ++ b)) as [r|] eqn:Hq.
        -- exfalso. apply strip_prefix_Some in Hq.
           destruct (Nat.lt_ge_cases (List.length (c :: a)) 9) as [Hlt|Hge].
           ++ eapply ISNOTNULL_unbordered; [| exact Hlt | exact Hq]. discriminate.
           ++ assert (Hpre : exists r', c :: a = ISNOTNULL ++ r').
              { exists (skipn 9 (c :: a)).
                rewrite <- (firstn_skipn 9 (c :: a)) at 1. f_equal.
                apply (f_equal (firstn 9)) in Hq.
                rewrite firstn_app in Hq.
                replace (9 - List.length (c :: a))%nat with 0%nat in Hq by lia.
                rewrite firstn_O, app_nil_r in Hq. rewrite Hq. reflexivity. }
              destruct Hpre as [r' Hr']. rewrite Hr' in Hp.
              rewrite strip_prefix_app in Hp. discriminate.
        -- change ((c :: a) ++ ISNOTNULL ++ b) with (c :: (a ++ ISNOTNULL ++ b)) in *.
           rewrite (replace_literal_miss _ _ _ _ _ Hq).
           rewrite (replace_literal_miss _ _ _ _ _ Hp).
           cbn [app]. f_equal. apply IH. simpl in Hlen. lia.
Qed.

(** A string without an upper-case occurrence is left as it is. *)
Lemma replace_ISNOTNULL_absent :
  forall s prev,
    (forall a b, s <> a ++ ISNOTNULL ++ b) ->
    replace_from re_ISNOTNULL isnotnull prev 0 s = s.
Proof.
  rewrite re_ISNOTNULL_eq.
  induction s as [|c s IH]; intros prev H; [reflexivity|].
  destruct (strip_prefix ISNOTNULL (c :: s)) as [r|] eqn:Hp.
  - apply strip_prefix_Some in Hp. exfalso. apply (H [] r). exact Hp.
  - rewrite (replace_literal_miss _ _ _ _ _ Hp). f_equal. apply IH.
    intros a b Hs. apply (H (c :: a) b). now rewrite Hs.
Qed.

(** ** The [SPAN(] step *)

Lemma re_SPAN_hit (prev : option N) (s : jsstring) (k : nat) (m : list jsstring) :
  re_SPAN prev s = Some (k, m) ->
  exists r, s = SPAN_paren ++ r /\ k = 4%nat.
Proof.
  unfold re_SPAN, re_literal. destruct (word_boundary_before_word prev); [|discriminate].
  change (js "SPAN(") with SPAN_paren.
  destruct (strip_prefix SPAN_paren s) as [r|] eqn:Hp; [|discriminate].
  intros H. inversion H. exists r. split; [|reflexivity].
  now apply strip_prefix_Some.
Qed.

(** The step keeps the length and touches only the letters of [SPAN]. *)
Lemma replace_SPAN_pointwise :
  forall n s prev, (List.length s <= n)%nat ->
    Forall2 span_lowered s (replace_from re_SPAN span_paren prev 0 s).
Proof.
  induction n as [|n IH]; intros s prev Hlen.
  - destruct s; [constructor|simpl in Hlen; lia].
  - destruct s as [|c s]; [constructor|].
    cbn [replace_from].
    destruct (re_SPAN prev (c :: s)) as [[k m]|] eqn:Hre.
    + destruct (re_SPAN_hit _ _ _ _ Hre) as [r [Hs ->]].
      injection Hs as -> ->.
      change (80 :: 65 :: 78 :: 40 :: r) with ([80; 65; 78; 40] ++ r).
      rewrite (replace_from_skip re_SPAN span_paren [80; 65; 78; 40]).
      change (83 :: [80; 65; 78; 40] ++ r) with (SPAN_paren ++ r).
      apply Forall2_app.
      * unfold SPAN_paren, span_paren, span_lowered.
        repeat constructor; right; split; auto 6.
      * apply IH. simpl in Hlen. lia.
    + constructor; [now left|]. apply IH. simpl in Hlen. lia.
Qed.

Lemma span_lowered_isnotnull (m : jsstring) :
  Forall2 span_lowered isnotnull m -> m = isnotnull.
Proof.
  unfold isnotnull, span_lowered. intros H.
  repeat match goal with
         | H : Forall2 _ (_ :: _) _ |- _ => inversion H; clear H; subst
         | H : Forall2 _ [] _ |- _ => inversion H; clear H; subst
         end.
  repeat match goal with
         | H : _ \/ _ |- _ => destruct H as [H|[_ H]]; [subst|exfalso; lia]
         end.
  reflexivity.
Qed.

Lemma filter_not_backtick_isnotnull : filter not_backtick isnotnull = isnotnull.
Proof. reflexivity. Qed.

Lemma normalize_ppl_unfold (ppl : jsstring) :
  normalize_ppl ppl
  = replace re_SPAN span_paren
      (filter not_backtick
         (replace re_ISNOTNULL isnotnull
            (trim (map (fun c => if is_cr_or_lf c then SPACE else c) ppl)))).
Proof.
  unfold normalize_ppl. now rewrite replace_backtick, replace_cr_or_lf.
Qed.

Lemma occursb_unfold (p s : jsstring) :
  occursb p s
  = match strip_prefix p s with
    | Some _ => true
    | None => match s with [] => false | _ :: s' => occursb p s' end
    end.
Proof. destruct s; reflexivity. Qed.

Lemma occurs_occursb (p s : jsstring) : occurs p s -> occursb p s = true.
Proof.
  intros [a [b ->]]. induction a as [|c a IH].
  - rewrite occursb_unfold. cbn [app]. now rewrite strip_prefix_app.
  - rewrite occursb_unfold. cbn [app].
    destruct (strip_prefix p (c :: a ++ p ++ b)); [reflexivity|exact IH].
Qed.

(** The clean-up rewrites [ISNOTNULL] in upper case only.  Every upper-case
    occurrence in the collapsed and trimmed query stands as [isnotnull] in the
    result, between the cleaned-up text before it and the cleaned-up text
    after it; and when the collapsed and trimmed query has no upper-case
    occurrence, the step changes nothing. *)
Lemma normalize_ppl_ISNOTNULL (ppl : jsstring) :
  (forall a b,
      trim (replace re_cr_or_lf [SPACE] ppl) = a ++ ISNOTNULL ++ b ->
      exists u v,
        normalize_ppl ppl = u ++ isnotnull ++ v
        /\ Forall2 span_lowered
             (filter not_backtick (replace re_ISNOTNULL isnotnull a)) u
        /\ Forall2 span_lowered
             (filter not_backtick (replace re_ISNOTNULL isnotnull b)) v)
  /\ (~ occurs ISNOTNULL (trim (replace re_cr_or_lf [SPACE] ppl)) ->
      normalize_ppl ppl
      = replace re_SPAN span_paren
          (replace re_backtick [] (trim (replace re_cr_or_lf [SPACE] ppl)))).
Proof.
  split.
  - intros a b Ht. unfold normalize_ppl.
    change (js "isnotnull") with isnotnull. change (js "span(") with span_paren.
    rewrite Ht.
    change (replace re_ISNOTNULL isnotnull (a ++ ISNOTNULL ++ b))
      with (replace_from re_ISNOTNULL isnotnull None 0 (a ++ ISNOTNULL ++ b)).
    rewrite (replace_ISNOTNULL_app b _ a None (le_n _)).
    change (replace_from re_ISNOTNULL isnotnull None 0)
      with (replace re_ISNOTNULL isnotnull).
    rewrite replace_backtick, !filter_app, filter_not_backtick_isnotnull.
    pose proof (replace_SPAN_pointwise _ _ None (le_n _)
                  : Forall2 span_lowered
                      (filter not_backtick (replace re_ISNOTNULL isnotnull a)
                       ++ isnotnull
                       ++ filter not_backtick (replace re_ISNOTNULL isnotnull b))
                      (replace re_SPAN span_paren _)) as Hpt.
    apply Forall2_app_inv_l in Hpt. destruct Hpt as [u [w [Hu [Hw Heq]]]].
    apply Forall2_app_inv_l in Hw. destruct Hw as [m [v [Hm [Hv ->]]]].
    apply span_lowered_isnotnull in Hm. subst m.
    exists u, v. split; [exact Heq|]. split; assumption.
  - intros Hno. unfold normalize_ppl.
    change (js "isnotnull") with isnotnull. change (js "span(") with span_paren.
    unfold replace at 3. rewrite replace_ISNOTNULL_absent; [reflexivity|].
    intros a b Hs. apply Hno. now exists a, b.
Qed.

(** ** [JSON.parse] never runs out of budget *)

Lemma skip_ws_length (s : jsstring) :
  (List.length (skip_ws s) <= List.length s)%nat.
Proof.
  induction s as [|c s IH]; simpl; [lia|].
  destruct (is_json_ws c); simpl; lia.
Qed.

Lemma starts_with_length (c : N) (s r : jsstring) :
  starts_with c s = Some r -> (List.length r < List.length s)%nat.
Proof.
  destruct s as [|d s]; simpl; [discriminate|].
  destruct (c =? d); [|discriminate]. intros H; inversion H; subst. lia.
Qed.

Lemma strip_prefix_length (p s r : jsstring) :
  strip_prefix p s = Some r -> (List.length r <= List.length s)%nat.
Proof.
  intros H. apply strip_prefix_Some in H. subst. rewrite length_app. lia.
Qed.

Lemma cons_unit_Some (c : N) (p : option (jsstring * jsstring)) (t r : jsstring) :
  cons_unit c p = Some (t, r) -> exists t', p = Some (t', r).
Proof.
  destruct p as [[t' r']|]; simpl; [|discriminate].
  intros H; inversion H; subst. now exists t'.
Qed.

Lemma parse_string_chars_length :
  forall n s t r, (List.length s <= n)%nat ->
    parse_string_chars s = Some (t, r) -> (List.length r < List.length s)%nat.
Proof.
  induction n as [|n IH]; intros s t r Hlen H.
  - destruct s; [discriminate|simpl in Hlen; lia].
  - destruct s as [|c s]; [discriminate|]. simpl in Hlen.
    cbn [parse_string_chars] in H.
    destruct (c =? DQUOTE).
    { inversion H; subst. simpl. lia. }
    destruct (c =? BACKSLASH).
    + destruct s as [|e s1]; [discriminate|].
      destruct (e =? 117).
      * destruct s1 as [|h1 [|h2 [|h3 [|h4 r2]]]]; try discriminate.
        destruct (hex4 h1 h2 h3 h4); [|discriminate].
        apply cons_unit_Some in H. destruct H as [t' H].
        apply IH in H; simpl in *; lia.
      * destruct (simple_escape e); [|discriminate].
        apply cons_unit_Some in H. destruct H as [t' H].
        apply IH in H; simpl in *; lia.
    + destruct (c <? 32); [discriminate|].
      apply cons_unit_Some in H. destruct H as [t' H].
      apply IH in H; simpl in *; lia.
Qed.

Lemma take_digits_length (s : jsstring) :
  (List.length (snd (take_digits s)) <= List.length s)%nat.
Proof.
  induction s as [|c s IH]; simpl; [lia|].
  destruct (is_digit c); [|simpl; lia].
  destruct (take_digits s) as [ds r]. simpl in *. lia.
Qed.

Lemma parse_number_length (s n r : jsstring) :
  parse_number s = Some (n, r) -> (List.length r <= List.length s)%nat.
Proof.
  unfold parse_number.
  assert (Hsign : forall sg s1,
             match s with
             | c :: r0 => if c =? 45 then ([c], r0) else ([], s)
             | [] => ([], s)
             end = (sg, s1) -> (List.length s1 <= List.length s)%nat).
  { intros sg s1. destruct s as [|c r0]; [intros H; inversion H; subst; lia|].
    destruct (c =? 45); intros H; inversion H; subst; simpl; lia. }
  destruct (match s with
            | c :: r0 => if c =? 45 then ([c], r0) else ([], s)
            | [] => ([], s)
            end) as [sign s1] eqn:Es.
  specialize (Hsign _ _ eq_refl).
  assert (Hint : forall i s2,
             match s1 with
             | c :: r0 =>
                 if c =? 48 then Some ([c], r0)
                 else if is_digit c then Some (take_digits s1) else None
             | [] => None
             end = Some (i, s2) -> (List.length s2 <= List.length s1)%nat).
  { intros i s2. destruct s1 as [|c r0]; [discriminate|].
    destruct (c =? 48); [intros H; inversion H; subst; simpl; lia|].
    destruct (is_digit c); [|discriminate].
    intros H. injection H as H1.
    pose proof (take_digits_length (c :: r0)) as Hd.
    replace (take_digits (c :: r0)) with (i, s2) in Hd by (symmetry; exact H1).
    exact Hd. }
  destruct (match s1 with
            | c :: r0 =>
                if c =? 48 then Some ([c], r0)
                else if is_digit c then Some (take_digits s1) else None
            | [] => None
            end) as [[int s2]|]; [|discriminate].
  specialize (Hint _ _ eq_refl).
  assert (Hfrac : forall f s3,
             match s2 with
             | c :: r0 =>
                 if c =? 46 then
                   match take_digits r0 with
                   | ([], _) => None
                   | (ds, r') => Some (c :: ds, r')
                   end
                 else Some ([], s2)
             | [] => Some ([], s2)
             end = Some (f, s3) -> (List.length s3 <= List.length s2)%nat).
  { intros f s3. destruct s2 as [|c r0]; [intros H; inversion H; subst; lia|].
    destruct (c =? 46); [|intros H; inversion H; subst; lia].
    pose proof (take_digits_length r0) as Hd.
    destruct (take_digits r0) as [[|d ds] r']; [discriminate|].
    intros H; inversion H; subst. simpl in *. lia. }
  destruct (match s2 with
            | c :: r0 =>
                if c =? 46 then
                  match take_digits r0 with
                  | ([], _) => None
                  | (ds, r') => Some (c :: ds, r')
                  end
                else Some ([], s2)
            | [] => Some ([], s2)
            end) as [[frac s3]|]; [|discriminate].
  specialize (Hfrac _ _ eq_refl).
  destruct s3 as [|c r0]; [intros H; inversion H; subst; lia|].
  destruct ((c =? 101) || (c =? 69)); [|intros H; inversion H; subst; lia].
  assert (Hes : forall es r1,
             match r0 with
             | d :: r' => if (d =? 43) || (d =? 45) then ([d], r') else ([], r0)
             | [] => ([], r0)
             end = (es, r1) -> (List.length r1 <= List.length r0)%nat).
  { intros es r1. destruct r0 as [|d r']; [intros H; inversion H; subst; lia|].
    destruct ((d =? 43) || (d =? 45)); intros H; inversion H; subst; simpl; lia. }
  destruct (match r0 with
            | d :: r' => if (d =? 43) || (d =? 45) then ([d], r') else ([], r0)
            | [] => ([], r0)
            end) as [esign r1].
  specialize (Hes _ _ eq_refl).
  pose proof (take_digits_length r1) as Hd.
  destruct (take_digits r1) as [[|d ds] r']; [discriminate|].
  intros H; inversion H; subst. simpl in *. lia.
Qed.

(** What a successful sub-parse leaves is never longer than its input. *)
Lemma parse_rest_length (fuel : nat) :
  (forall s v r, parse_value fuel s = Parsed v r ->
                 (List.length r <= List.length s)%nat)
  /\ (forall s acc v r, parse_elements fuel s acc = Parsed v r ->
                        (List.length r <= List.length s)%nat)
  /\ (forall s acc v r, parse_members fuel s acc = Parsed v r ->
                        (List.length r <= List.length s)%nat).
Proof.
  induction fuel as [|fuel [IHv [IHe IHm]]].
  - repeat split; intros; discriminate.
  - split; [|split].
    + intros s v r. cbn [parse_value parse_elements parse_members].
      pose proof (skip_ws_length s) as Hws.
      destruct (skip_ws s) as [|c r0]; [discriminate|]. simpl in Hws.
      destruct (c =? 123).
      { pose proof (skip_ws_length r0) as Hws'.
        destruct (starts_with 125 (skip_ws r0)) as [r'|] eqn:Hsw.
        - apply starts_with_length in Hsw. intros H; inversion H; subst. lia.
        - intros H. apply IHm in H. lia. }
      destruct (c =? 91).
      { pose proof (skip_ws_length r0) as Hws'.
        destruct (starts_with 93 (skip_ws r0)) as [r'|] eqn:Hsw.
        - apply starts_with_length in Hsw. intros H; inversion H; subst. lia.
        - intros H. apply IHe in H. lia. }
      destruct (c =? DQUOTE).
      { destruct (parse_string_chars r0) as [[t r']|] eqn:Hs; [|discriminate].
        apply (parse_string_chars_length _ _ _ _ (le_n _)) in Hs.
        intros H; inversion H; subst. lia. }
      destruct (strip_prefix (js "true") (c :: r0)) as [r'|] eqn:Ht.
      { apply strip_prefix_length in Ht. simpl in Ht.
        intros H; inversion H; subst. lia. }
      destruct (strip_prefix (js "false") (c :: r0)) as [r'|] eqn:Hf.
      { apply strip_prefix_length in Hf. simpl in Hf.
        intros H; inversion H; subst. lia. }
      destruct (strip_prefix (js "null") (c :: r0)) as [r'|] eqn:Hn.
      { apply strip_prefix_length in Hn. simpl in Hn.
        intros H; inversion H; subst. lia. }
      destruct (parse_number (c :: r0)) as [[n r']|] eqn:Hnum; [|discriminate].
      apply parse_number_length in Hnum. simpl in Hnum.
      intros H; inversion H; subst. lia.
    + intros s acc v r. cbn [parse_value parse_elements parse_members].
      destruct (parse_value fuel s) as [v0 r0| |] eqn:Hv; try discriminate.
      apply IHv in Hv. pose proof (skip_ws_length r0) as Hws.
      destruct (skip_ws r0) as [|c r1]; [discriminate|]. simpl in Hws.
      destruct (c =? 44).
      { intros H. apply IHe in H. lia. }
      destruct (c =? 93); [|discriminate].
      intros H; inversion H; subst. lia.
    + intros s acc v r. cbn [parse_value parse_elements parse_members].
      pose proof (skip_ws_length s) as Hws.
      destruct (starts_with DQUOTE (skip_ws s)) as [r0|] eqn:Hq; [|discriminate].
      apply starts_with_length in Hq.
      destruct (parse_string_chars r0) as [[k r1]|] eqn:Hk; [|discriminate].
      apply (parse_string_chars_length _ _ _ _ (le_n _)) in Hk.
      pose proof (skip_ws_length r1) as Hws1.
      destruct (starts_with 58 (skip_ws r1)) as [r2|] eqn:Hc; [|discriminate].
      apply starts_with_length in Hc.
      destruct (parse_value fuel r2) as [v0 r3| |] eqn:Hv; try discriminate.
      apply IHv in Hv. pose proof (skip_ws_length r3) as Hws3.
      destruct (skip_ws r3) as [|c r4]; [discriminate|]. simpl in Hws3.
      destruct (c =? 44).
      { intros H. apply IHm in H. lia. }
      destruct (c =? 125); [|discriminate].
      intros H; inversion H; subst. lia.
Qed.

(** A budget of twice the length of the text is never used up. *)
Lemma parse_budget (fuel : nat) :
  (forall s, (2 * List.length s < fuel)%nat -> parse_value fuel s <> Exhausted)
  /\ (forall s acc, (2 * List.length s + 1 < fuel)%nat ->
                    parse_elements fuel s acc <> Exhausted)
  /\ (forall s acc, (2 * List.length s + 1 < fuel)%nat ->
                    parse_members fuel s acc <> Exhausted).
Proof.
  induction fuel as [|fuel [IHv [IHe IHm]]].
  - repeat split; intros; lia.
  - split; [|split].
    + intros s Hb. cbn [parse_value parse_elements parse_members].
      pose proof (skip_ws_length s) as Hws.
      destruct (skip_ws s) as [|c r0]; [discriminate|]. simpl in Hws.
      destruct (c =? 123).
      { destruct (starts_with 125 (skip_ws r0)); [discriminate|].
        apply IHm. lia. }
      destruct (c =? 91).
      { destruct (starts_with 93 (skip_ws r0)); [discriminate|].
        apply IHe. lia. }
      destruct (c =? DQUOTE).
      { destruct (parse_string_chars r0) as [[t r']|]; discriminate. }
      destruct (strip_prefix (js "true") (c :: r0)); [discriminate|].
      destruct (strip_prefix (js "false") (c :: r0)); [discriminate|].
      destruct (strip_prefix (js "null") (c :: r0)); [discriminate|].
      destruct (parse_number (c :: r0)) as [[n r']|]; discriminate.
    + intros s acc Hb. cbn [parse_value parse_elements parse_members].
      pose proof (IHv s) as Hv.
      destruct (parse_value fuel s) as [v0 r0| |] eqn:Ev;
        [|discriminate|exfalso; apply Hv; [lia|reflexivity]].
      apply (proj1 (parse_rest_length fuel)) in Ev.
      pose proof (skip_ws_length r0) as Hws.
      destruct (skip_ws r0) as [|c r1]; [discriminate|]. simpl in Hws.
      destruct (c =? 44); [apply IHe; lia|].
      destruct (c =? 93); discriminate.
    + intros s acc Hb. cbn [parse_value parse_elements parse_members].
      pose proof (skip_ws_length s) as Hws.
      destruct (starts_with DQUOTE (skip_ws s)) as [r0|] eqn:Hq; [|discriminate].
      apply starts_with_length in Hq.
      destruct (parse_string_chars r0) as [[k r1]|] eqn:Hk; [|discriminate].
      apply (parse_string_chars_length _ _ _ _ (le_n _)) in Hk.
      pose proof (skip_ws_length r1) as Hws1.
      destruct (starts_with 58 (skip_ws r1)) as [r2|] eqn:Hc; [|discriminate].
      apply starts_with_length in Hc.
      pose proof (IHv r2) as Hv.
      destruct (parse_value fuel r2) as [v0 r3| |] eqn:Ev;
        [|discriminate|exfalso; apply Hv; [lia|reflexivity]].
      apply (proj1 (parse_rest_length fuel)) in Ev.
      pose proof (skip_ws_length r3) as Hws3.
      destruct (skip_ws r3) as [|c r4]; [discriminate|]. simpl in Hws3.
      destruct (c =? 44); [apply IHm; lia|].
      destruct (c =? 125); discriminate.
Qed.

(** [JSON.parse] is total: every text is a value or a syntax error. *)
Lemma parse_text_total (s : jsstring) : parse_text s <> Exhausted.
Proof.
  unfold parse_text.
  pose proof (proj1 (parse_budget (2 * List.length s + 1)) s) as Hb.
  destruct (parse_value (2 * List.length s + 1) s) as [v r| |];
    [|discriminate|exfalso; apply Hb; [lia|reflexivity]].
  destruct (skip_ws r); discriminate.
Qed.

(** ** [JSON.stringify] and [JSON.parse] *)

Lemma hex_value_hex_digit (n : N) : n < 16 -> hex_value (hex_digit n) = Some n.
Proof.
  intros H. unfold hex_digit, hex_value, is_digit.
  destruct (N.ltb_spec n 10).
  - replace (48 <=? 48 + n) with true by (symmetry; apply N.leb_le; lia).
    replace (48 + n <=? 57) with true by (symmetry; apply N.leb_le; lia).
    cbn [andb]. f_equal. lia.
  - replace (87 + n <=? 57) with false by (symmetry; apply N.leb_gt; lia).
    rewrite andb_false_r.
    replace (97 <=? 87 + n) with true by (symmetry; apply N.leb_le; lia).
    replace (87 + n <=? 102) with true by (symmetry; apply N.leb_le; lia).
    cbn [andb]. f_equal. lia.
Qed.

Lemma hex4_digits (c : N) :
  c < 65536 ->
  hex4 (hex_digit ((c / 4096) mod 16)) (hex_digit ((c / 256) mod 16))
       (hex_digit ((c / 16) mod 16)) (hex_digit (c mod 16)) = Some c.
Proof.
  intros H. unfold hex4.
  rewrite !hex_value_hex_digit by (apply N.mod_lt; discriminate).
  f_equal. zify. Z.to_euclidean_division_equations. lia.
Qed.

(** A [\uXXXX] escape written by [JSON.stringify] is read back as the code
    unit it stands for. *)
Lemma parse_unicode_escape (c : N) (rest : jsstring) :
  c < 65536 ->
  parse_string_chars (unicode_escape c ++ rest)
  = cons_unit c (parse_string_chars rest).
Proof.
  intros H. unfold unicode_escape. cbn [app parse_string_chars].
  change (BACKSLASH =? DQUOTE) with false. change (BACKSLASH =? BACKSLASH) with true.
  change (117 =? 117) with true. cbv iota.
  now rewrite (hex4_digits c H).
Qed.

(** A code unit that [JSON.stringify] writes as it is. *)
Lemma parse_plain_unit (c : N) (rest : jsstring) :
  c <> DQUOTE -> c <> BACKSLASH -> 32 <= c ->
  parse_string_chars (c :: rest) = cons_unit c (parse_string_chars rest).
Proof.
  intros Hq Hb Hc. cbn [parse_string_chars].
  destruct (N.eqb_spec c DQUOTE); [contradiction|].
  destruct (N.eqb_spec c BACKSLASH); [contradiction|].
  destruct (N.ltb_spec c 32); [lia|]. reflexivity.
Qed.

Lemma surrogate_is_plain (c : N) :
  55296 <= c -> c <> DQUOTE /\ c <> BACKSLASH /\ 32 <= c.
Proof. unfold DQUOTE, BACKSLASH. lia. Qed.

Lemma parse_string_chars_quote_chars (r : jsstring) :
  forall n s, (List.length s <= n)%nat ->
    parse_string_chars (quote_chars s ++ DQUOTE :: r) = Some (s, r).
Proof.
  induction n as [|n IH]; intros s Hlen.
  - destruct s; [|simpl in Hlen; lia]. cbn [quote_chars app parse_string_chars].
    now rewrite N.eqb_refl.
  - destruct s as [|c s].
    { cbn [quote_chars app parse_string_chars]. now rewrite N.eqb_refl. }
    simpl in Hlen. assert (Hs : (List.length s <= n)%nat) by lia.
    pose proof (IH s Hs) as IHs.
    cbn [quote_chars].
    destruct (N.eqb_spec c 8) as [->|H8].
    { cbn [app parse_string_chars]. rewrite IHs. reflexivity. }
    destruct (N.eqb_spec c 9) as [->|H9].
    { cbn [app parse_string_chars]. rewrite IHs. reflexivity. }
    destruct (N.eqb_spec c 10) as [->|H10].
    { cbn [app parse_string_chars]. rewrite IHs. reflexivity. }
    destruct (N.eqb_spec c 12) as [->|H12].
    { cbn [app parse_string_chars]. rewrite IHs. reflexivity. }
    destruct (N.eqb_spec c 13) as [->|H13].
    { cbn [app parse_string_chars]. rewrite IHs. reflexivity. }
    destruct (N.eqb_spec c DQUOTE) as [->|Hq].
    { cbn [app parse_string_chars]. rewrite IHs. reflexivity. }
    destruct (N.eqb_spec c BACKSLASH) as [->|Hb].
    { cbn [app parse_string_chars]. rewrite IHs. reflexivity. }
    destruct (N.ltb_spec c 32) as [Hlt|Hge].
    { rewrite <- app_assoc, parse_unicode_escape by lia. now rewrite IHs. }
    unfold is_high_surrogate, is_low_surrogate.
    destruct (N.leb_spec 55296 c) as [Hh|Hh]; cbn [andb].
    + destruct (N.leb_spec c 56319) as [Hh'|Hh'].
      * destruct s as [|d s'].
        { rewrite <- app_assoc, parse_unicode_escape by lia. now rewrite IHs. }
        destruct (N.leb_spec 56320 d) as [Hl|Hl]; cbn [andb].
        -- destruct (N.leb_spec d 57343) as [Hl'|Hl'].
           ++ cbn [app].
              destruct (surrogate_is_plain c Hh) as [? [? ?]].
              destruct (surrogate_is_plain d) as [? [? ?]]; [lia|].
              rewrite !parse_plain_unit by assumption.
              rewrite IH by (simpl in Hs; lia). reflexivity.
           ++ rewrite <- app_assoc, parse_unicode_escape by lia. now rewrite IHs.
        -- rewrite <- app_assoc, parse_unicode_escape by lia. now rewrite IHs.
      * destruct (N.leb_spec 56320 c) as [Hl|Hl]; [|lia]. cbn [andb].
        destruct (N.leb_spec c 57343) as [Hl'|Hl'].
        -- rewrite <- app_assoc, parse_unicode_escape by lia. now rewrite IHs.
        -- cbn [app]. rewrite parse_plain_unit by assumption. now rewrite IHs.
    + destruct (N.leb_spec 56320 c) as [Hl|Hl]; [lia|]. cbn [andb app].
      rewrite parse_plain_unit by assumption. now rewrite IHs.
Qed.

(** What [JSON.stringify] writes for a string is a JSON text, and
    [JSON.parse] reads the string back from it. *)
Lemma parse_text_JSON_stringify (s : jsstring) :
  parse_text (JSON_stringify s) = Parsed (JString s) [].
Proof.
  unfold parse_text, JSON_stringify. rewrite Nat.add_1_r.
  cbn [parse_value skip_ws].
  change (is_json_ws DQUOTE) with false. cbv iota.
  change (DQUOTE =? 123) with false. change (DQUOTE =? 91) with false.
  change (DQUOTE =? DQUOTE) with true. cbv iota.
  rewrite (parse_string_chars_quote_chars [] _ s (le_n _)). reflexivity.
Qed.

(** ** The generate handler *)

Ltac unfold_M :=
  unfold try_catch, bind, lift, ret, throw, catch_clause,
    call_transport_request, call_indices_getMapping, call_search,
    Promise_all2, issue in *.

Section GenerateProperties.

Context (ML_COMMONS_API_PREFIX : jsstring) {Mappings SearchResponse : Type}
        (TypeError_message : TypeErrorKind -> jsstring)
        (SyntaxError_message : jsstring -> jsstring).

Local Abbreviation handler :=
  (generate_ppl_handler ML_COMMONS_API_PREFIX TypeError_message SyntaxError_message).
Local Abbreviation try_block :=
  (generate_ppl_try ML_COMMONS_API_PREFIX TypeError_message SyntaxError_message).
Local Abbreviation params := (ppl_request_params ML_COMMONS_API_PREFIX).
Local Abbreviation Client := (OpenSearchClient Mappings SearchResponse).

(** The handler issues the agent request and nothing else. *)
Lemma generate_ppl_try_log (config : QueryAssistConfig) (client : Client)
    (request : GeneratePplBody) (log : list Call) :
  snd (try_block config client request log)
  = log ++ [TransportRequest (params config request) AGENT_REQUEST_OPTIONS].
Proof.
  unfold generate_ppl_try. unfold_M.
  destruct (transport_request client _ _) as [body|e]; [|reflexivity].
  destruct (first_result TypeError_message body) as [r|e]; [|reflexivity].
  destruct (falsy_string r); [reflexivity|].
  destruct (JSON_parse SyntaxError_message _) as [v|e]; [|reflexivity].
  destruct (ppl_of TypeError_message v); reflexivity.
Qed.

(** A configured handler answers with the result of its [try] block, or
    with the error the block throws, mapped by the [catch] clause. *)
Lemma generate_ppl_handler_configured (config : QueryAssistConfig) (client : Client)
    (request : GeneratePplBody) (log : list Call) :
  falsy_string (ppl_agent_id config) = false ->
  handler config client request log
  = match try_block config client request log with
    | (Returned r, log') => (Returned r, log')
    | (Thrown e, log') =>
        (Returned (response_custom (number_or (statusCode e) 500) (message e)), log')
    end.
Proof.
  intros Hc. unfold generate_ppl_handler. rewrite Hc. reflexivity.
Qed.

(** The successful run: the agent answers with a JSON text whose [ppl]
    member is a string. *)
Lemma generate_ppl_handler_ok (config : QueryAssistConfig) (client : Client)
    (request : GeneratePplBody) (log : list Call)
    (body : AgentResponseBody) (text ppl : jsstring) (ms : list (jsstring * json)) :
  falsy_string (ppl_agent_id config) = false ->
  transport_request client (params config request) AGENT_REQUEST_OPTIONS
  = Returned body ->
  first_result TypeError_message body = Returned (Some text) ->
  parse_text text = Parsed (JObject ms) [] ->
  get_member (js "ppl") ms = Some (JString ppl) ->
  handler config client request log
  = (Returned (response_ok (Text (normalize_ppl ppl))),
     log ++ [TransportRequest (params config request) AGENT_REQUEST_OPTIONS]).
Proof.
  intros Hc Hreq Hres Hparse Hppl.
  rewrite generate_ppl_handler_configured by exact Hc.
  unfold generate_ppl_try. unfold_M. rewrite Hreq, Hres.
  assert (Hne : falsy_string (Some text) = false).
  { destruct text; [discriminate Hparse|reflexivity]. }
  rewrite Hne. cbn [string_or_empty]. unfold JSON_parse. rewrite Hparse.
  cbn [ppl_of]. rewrite Hppl. reflexivity.
Qed.

(** The run in which the result is missing or empty. *)
Lemma generate_ppl_handler_not_found (config : QueryAssistConfig) (client : Client)
    (request : GeneratePplBody) (log : list Call)
    (body : AgentResponseBody) (r : option jsstring) :
  falsy_string (ppl_agent_id config) = false ->
  transport_request client (params config request) AGENT_REQUEST_OPTIONS
  = Returned body ->
  first_result TypeError_message body = Returned r ->
  falsy_string r = true ->
  handler config client request log
  = (Returned (response_custom 500 (js "Generated PPL query not found.")),
     log ++ [TransportRequest (params config request) AGENT_REQUEST_OPTIONS]).
Proof.
  intros Hc Hreq Hres Hf.
  rewrite generate_ppl_handler_configured by exact Hc.
  unfold generate_ppl_try. unfold_M. rewrite Hreq, Hres, Hf. reflexivity.
Qed.

Lemma first_result_at (body : AgentResponseBody) (ir : InferenceResult)
    (o : AgentOutput) :
  nth_error (inference_results body) 0 = Some ir ->
  nth_error (output ir) 0 = Some o ->
  first_result TypeError_message body = Returned (result o).
Proof.
  intros Hir Ho. unfold first_result, element_for. now rewrite Hir, Ho.
Qed.

(** C4. When the PPL agent identifier is absent from the configuration, the
    generate handler answers 400 with the fixed message and issues no call
    to the client: the record of calls is left as it was. *)
Theorem generate_ppl_unconfigured (config : QueryAssistConfig) (client : Client)
    (request : GeneratePplBody) (log : list Call) :
  ppl_agent_id config = None ->
  handler config client request log
  = (Returned
       {| res_statusCode := 400;
          res_body :=
            Text (js "PPL agent not found in opensearch_dashboards.yml. Expected observability.query_assist.ppl_agent_id") |},
     log).
Proof.
  intros Hc. unfold generate_ppl_handler. rewrite Hc. reflexivity.
Qed.

(** When [output[0]] itself (or [inference_results[0]]) is absent, reading
    it throws a [TypeError]: the answer is still 500, with the message of the
    engine. *)
Lemma generate_ppl_output_absent (config : QueryAssistConfig) (client : Client)
    (request : GeneratePplBody) (log : list Call) (body : AgentResponseBody) :
  falsy_string (ppl_agent_id config) = false ->
  transport_request client (params config request) AGENT_REQUEST_OPTIONS
  = Returned body ->
  (nth_error (inference_results body) 0 = None
   \/ exists ir, nth_error (inference_results body) 0 = Some ir
                 /\ nth_error (output ir) 0 = None) ->
  exists prop,
    handler config client request log
    = (Returned {| res_statusCode := 500;
                   res_body := Text (TypeError_message (ReadPropertyOfUndefined prop)) |},
       log ++ [TransportRequest (params config request) AGENT_REQUEST_OPTIONS]).
Proof.
  intros Hc Hreq Habs.
  rewrite generate_ppl_handler_configured by exact Hc.
  unfold generate_ppl_try. unfold_M. rewrite Hreq.
  unfold first_result, element_for.
  destruct Habs as [Hir | [ir [Hir Ho]]]; rewrite Hir.
  - exists "output"%string. reflexivity.
  - rewrite Ho. exists "result"%string. reflexivity.
Qed.

(** C6. With a configured PPL agent, when [inference_results[0].output[0]]
    has no [result], the generate handler answers 500 with the body
    [Generated PPL query not found.]. *)
Theorem generate_ppl_result_missing (config : QueryAssistConfig) (client : Client)
    (request : GeneratePplBody) (log : list Call)
    (body : AgentResponseBody) (ir : InferenceResult) (o : AgentOutput) :
  falsy_string (ppl_agent_id config) = false ->
  transport_request client (params config request) AGENT_REQUEST_OPTIONS
  = Returned body ->
  nth_error (inference_results body) 0 = Some ir ->
  nth_error (output ir) 0 = Some o ->
  result o = None ->
  handler config client request log
  = (Returned {| res_statusCode := 500;
                 res_body := Text (js "Generated PPL query not found.") |},
     log ++ [TransportRequest (params config request) AGENT_REQUEST_OPTIONS]).
Proof.
  intros Hc Hreq Hir Ho Hr.
  apply (generate_ppl_handler_not_found config client request log body (result o));
    [exact Hc | exact Hreq | | now rewrite Hr].
  now apply first_result_at with (ir := ir).
Qed.

(** C1 (amended). With a configured PPL agent, when the result of the agent
    is a JSON text whose [ppl] member is the string [source], space, CR, LF,
    space, [with SPAN(x) and `ticks` and ISNOTNULL(y)], the generate handler
    answers 200 with the body [source    with span(x) and ticks and
    isnotnull(y)]: four spaces after [source], CR and LF giving one space
    each. *)
Theorem generate_ppl_example (config : QueryAssistConfig) (client : Client)
    (request : GeneratePplBody) (log : list Call)
    (body : AgentResponseBody) (ir : InferenceResult) (o : AgentOutput)
    (text : jsstring) (ms : list (jsstring * json)) :
  falsy_string (ppl_agent_id config) = false ->
  transport_request client (params config request) AGENT_REQUEST_OPTIONS
  = Returned body ->
  nth_error (inference_results body) 0 = Some ir ->
  nth_error (output ir) 0 = Some o ->
  result o = Some text ->
  parse_text text = Parsed (JObject ms) [] ->
  get_member (js "ppl") ms = Some (JString example_ppl) ->
  handler config client request log
  = (Returned {| res_statusCode := 200;
                 res_body :=
                   Text (js "source    with span(x) and ticks and isnotnull(y)") |},
     log ++ [TransportRequest (params config request) AGENT_REQUEST_OPTIONS]).
Proof.
  intros Hc Hreq Hir Ho Hr Hparse Hppl.
  pose proof (first_result_at body ir o Hir Ho) as Hres. rewrite Hr in Hres.
  rewrite (generate_ppl_handler_ok config client request log body text example_ppl ms
             Hc Hreq Hres Hparse Hppl).
  reflexivity.
Qed.

(** C2 (amended). The generate handler rewrites [ISNOTNULL] in upper case
    only.  On a successful request, every upper-case occurrence in the
    collapsed and trimmed [ppl] string stands as [isnotnull] in the returned
    body, between the cleaned-up text before it and the cleaned-up text after
    it; and when the collapsed and trimmed string has no upper-case
    occurrence the step changes nothing, so that other casings such as
    [IsNotNull] are returned as they are. *)
Theorem generate_ppl_ISNOTNULL_upper_case (config : QueryAssistConfig) (client : Client)
    (request : GeneratePplBody) (log : list Call)
    (body : AgentResponseBody) (ir : InferenceResult) (o : AgentOutput)
    (text ppl : jsstring) (ms : list (jsstring * json)) :
  falsy_string (ppl_agent_id config) = false ->
  transport_request client (params config request) AGENT_REQUEST_OPTIONS
  = Returned body ->
  nth_error (inference_results body) 0 = Some ir ->
  nth_error (output ir) 0 = Some o ->
  result o = Some text ->
  parse_text text = Parsed (JObject ms) [] ->
  get_member (js "ppl") ms = Some (JString ppl) ->
  exists returned,
    handler config client request log
    = (Returned {| res_statusCode := 200; res_body := Text returned |},
       log ++ [TransportRequest (params config request) AGENT_REQUEST_OPTIONS])
    /\ (forall a b,
           trim (replace re_cr_or_lf [SPACE] ppl) = a ++ ISNOTNULL ++ b ->
           exists u v,
             returned = u ++ isnotnull ++ v
             /\ Forall2 span_lowered
                  (filter not_backtick (replace re_ISNOTNULL isnotnull a)) u
             /\ Forall2 span_lowered
                  (filter not_backtick (replace re_ISNOTNULL isnotnull b)) v)
    /\ (~ occurs ISNOTNULL (trim (replace re_cr_or_lf [SPACE] ppl)) ->
        returned
        = replace re_SPAN span_paren
            (replace re_backtick [] (trim (replace re_cr_or_lf [SPACE] ppl)))).
Proof.
  intros Hc Hreq Hir Ho Hr Hparse Hppl.
  pose proof (first_result_at body ir o Hir Ho) as Hres. rewrite Hr in Hres.
  exists (normalize_ppl ppl). split.
  - exact (generate_ppl_handler_ok config client request log body text ppl ms
             Hc Hreq Hres Hparse Hppl).
  - exact (normalize_ppl_ISNOTNULL ppl).
Qed.

(** [JSON.parse] throws on a syntax error only: the budget of the parser is
    never the reason. *)
Lemma JSON_parse_Thrown (text : jsstring) (e : JsError) :
  JSON_parse SyntaxError_message text = Thrown e ->
  parse_text text = Unexpected /\ e = SyntaxError SyntaxError_message text.
Proof.
  unfold JSON_parse. pose proof (parse_text_total text) as Ht.
  destruct (parse_text text); [discriminate| |contradiction].
  intros H. injection H as <-. split; reflexivity.
Qed.

End GenerateProperties.

(** ** The extraction of the suggested questions *)





















(** ** Both handlers *)

Section RouteProperties.

Context (ML_COMMONS_API_PREFIX : jsstring) {Mappings SearchResponse : Type}
        (generateFieldContext : Mappings -> SearchResponse -> Outcome jsstring)
        (TypeError_message : TypeErrorKind -> jsstring)
        (SyntaxError_message : jsstring -> jsstring).

Local Abbreviation generate :=
  (generate_ppl_handler ML_COMMONS_API_PREFIX TypeError_message SyntaxError_message).
Local Abbreviation generate_try :=
  (generate_ppl_try ML_COMMONS_API_PREFIX TypeError_message SyntaxError_message).
Local Abbreviation ppl_params := (ppl_request_params ML_COMMONS_API_PREFIX).
Local Abbreviation summarize :=
  (summarize_handler ML_COMMONS_API_PREFIX generateFieldContext TypeError_message).
Local Abbreviation summarize_block :=
  (summarize_try ML_COMMONS_API_PREFIX generateFieldContext TypeError_message).
Local Abbreviation agent_call :=
  (summary_request ML_COMMONS_API_PREFIX generateFieldContext).
Local Abbreviation response_params := (response_summary_params ML_COMMONS_API_PREFIX).
Local Abbreviation error_params := (error_summary_params ML_COMMONS_API_PREFIX).
Local Abbreviation Client := (OpenSearchClient Mappings SearchResponse).

Lemma summarize_handler_configured (config : QueryAssistConfig) (client : Client)
    (request : SummarizeBody) (log : list Call) :
  falsy_string (response_summary_agent_id config)
  || falsy_string (error_summary_agent_id config) = false ->
  summarize config client request log
  = match summarize_block config client request log with
    | (Returned r, log') => (Returned r, log')
    | (Thrown e, log') =>
        (Returned (response_custom (number_or (statusCode e) 500) (message e)), log')
    end.
Proof.
  intros Hc. unfold summarize_handler. rewrite Hc. reflexivity.
Qed.



(** The run in which the summary is missing or empty. *)
Lemma summarize_handler_not_found (config : QueryAssistConfig) (client : Client)
    (request : SummarizeBody) (log log' : list Call)
    (body : AgentResponseBody) (r : option jsstring) :
  falsy_string (response_summary_agent_id config)
  || falsy_string (error_summary_agent_id config) = false ->
  agent_call config client request log = (Returned body, log') ->
  first_result TypeError_message body = Returned r ->
  falsy_string r = true ->
  summarize config client request log
  = (Returned (response_custom 500 (js "Generated summary not found.")), log').
Proof.
  intros Hc Hcall Hres Hf.
  rewrite summarize_handler_configured by exact Hc.
  unfold summarize_try. unfold_M. rewrite Hcall, Hres, Hf. reflexivity.
Qed.

(** After the agent call the handler issues no further call. *)
Lemma summarize_try_log (config : QueryAssistConfig) (client : Client)
    (request : SummarizeBody) (log : list Call) :
  snd (summarize_block config client request log)
  = snd (agent_call config client request log).
Proof.
  unfold summarize_try. unfold_M.
  destruct (agent_call config client request log) as [[body|e] log']; [|reflexivity].
  destruct (first_result TypeError_message body) as [r|e]; [|reflexivity].
  destruct (falsy_string r); [reflexivity|].
  destruct (second_result TypeError_message body); reflexivity.
Qed.

Lemma summarize_handler_log (config : QueryAssistConfig) (client : Client)
    (request : SummarizeBody) (log : list Call) :
  falsy_string (response_summary_agent_id config)
  || falsy_string (error_summary_agent_id config) = false ->
  snd (summarize config client request log)
  = snd (agent_call config client request log).
Proof.
  intros Hc. rewrite summarize_handler_configured by exact Hc.
  rewrite <- summarize_try_log.
  destruct (summarize_block config client request log) as [[r|e] log']; reflexivity.
Qed.

(** C9. An empty-string result counts as a missing one.  In the generate
    handler, a first result that is absent or empty gives 500 with
    [Generated PPL query not found.]; in the summarize handler, on either
    branch, it gives 500 with [Generated summary not found.]. *)
Theorem empty_result_is_not_found (config : QueryAssistConfig) (client : Client)
    (body : AgentResponseBody) (ir : InferenceResult) (o : AgentOutput) :
  nth_error (inference_results body) 0 = Some ir ->
  nth_error (output ir) 0 = Some o ->
  result o = None \/ result o = Some [] ->
  (forall request log,
      falsy_string (ppl_agent_id config) = false ->
      transport_request client (ppl_params config request) AGENT_REQUEST_OPTIONS
      = Returned body ->
      generate config client request log
      = (Returned {| res_statusCode := 500;
                     res_body := Text (js "Generated PPL query not found.") |},
         log ++ [TransportRequest (ppl_params config request) AGENT_REQUEST_OPTIONS]))
  /\ (forall request log log',
         falsy_string (response_summary_agent_id config)
         || falsy_string (error_summary_agent_id config) = false ->
         agent_call config client request log = (Returned body, log') ->
         summarize config client request log
         = (Returned {| res_statusCode := 500;
                        res_body := Text (js "Generated summary not found.") |},
            log')).
Proof.
  intros Hir Ho Hr.
  assert (Hf : falsy_string (result o) = true) by (destruct Hr as [-> | ->]; reflexivity).
  pose proof (first_result_at TypeError_message body ir o Hir Ho) as Hfirst.
  split.
  - intros request log Hc Hreq.
    now apply (generate_ppl_handler_not_found ML_COMMONS_API_PREFIX TypeError_message
                 SyntaxError_message config client request log body (result o)).
  - intros request log log' Hc Hcall.
    now apply (summarize_handler_not_found config client request log log' body (result o)).
Qed.


(** The calls of the agent request, branch by branch. *)
Lemma summary_request_response_branch (config : QueryAssistConfig) (client : Client)
    (request : SummarizeBody) (log : list Call) :
  sum_isError request = false ->
  agent_call config client request log
  = (transport_request client (response_params config request) AGENT_REQUEST_OPTIONS,
     log ++ [TransportRequest (response_params config request) AGENT_REQUEST_OPTIONS]).
Proof.
  intros He. unfold summary_request. rewrite He. reflexivity.
Qed.

Lemma summary_request_error_branch (config : QueryAssistConfig) (client : Client)
    (request : SummarizeBody) (log : list Call) :
  sum_isError request = true ->
  snd (agent_call config client request log)
  = log ++ IndicesGetMapping (sum_index request) :: Search (sum_index request) 1
        :: match indices_getMapping client (sum_index request),
                 search client (sum_index request) 1 with
           | Returned m, Returned d =>
               match generateFieldContext m d with
               | Returned fields =>
                   [TransportRequest (error_params config request fields)
                      AGENT_REQUEST_OPTIONS]
               | Thrown _ => []
               end
           | _, _ => []
           end.
Proof.
  intros He. unfold summary_request. rewrite He. unfold_M. cbn [negb].
  destruct (indices_getMapping client (sum_index request)) as [m|e1];
    destruct (search client (sum_index request) 1) as [d|e2]; cbn [fst snd];
    try (rewrite <- app_assoc; reflexivity).
  destruct (generateFieldContext m d) as [fields|e]; cbn [snd];
    rewrite <- !app_assoc; reflexivity.
Qed.




Lemma schema_string_Some (v : option json) (s : jsstring) :
  schema_string v = Some s -> v = Some (JString s).
Proof.
  destruct v as [[| | | | |]|]; simpl; intros H; inversion H; reflexivity.
Qed.

(** C3 (amended). The summarize route accepts a body only when its
    [response] member is a string; for every accepted request, every request
    the handler sends to an agent carries, as its [response] parameter, that
    string serialized by [JSON.stringify]: a JSON text that [JSON.parse]
    reads back as the string. *)
Theorem summarize_response_is_string (body : json) (request : SummarizeBody) :
  validate_summarize body = Some request ->
  (exists ms,
      body = JObject ms
      /\ get_member (js "response") ms = Some (JString (sum_response request)))
  /\ parse_text (JSON_stringify (sum_response request))
     = Parsed (JString (sum_response request)) []
  /\ (forall (config : QueryAssistConfig) (client : Client),
         Forall (fun call =>
                   forall p o, call = TransportRequest p o ->
                     get_parameter "response" (parameters p)
                     = Some (Some (JSON_stringify (sum_response request))))
                (snd (summarize config client request []))).
Proof.
  intros Hv. split; [|split; [apply parse_text_JSON_stringify|]].
  - unfold validate_summarize in Hv. destruct body as [| | | | |ms]; try discriminate.
    exists ms. split; [reflexivity|].
    destruct (known_keys _ ms); [|discriminate].
    destruct (schema_string (get_member (js "index") ms)); [|discriminate].
    destruct (schema_string (get_member (js "question") ms)); [|discriminate].
    destruct (schema_maybe_string (get_member (js "query") ms)); [|discriminate].
    destruct (schema_string (get_member (js "response") ms)) as [r|] eqn:Hr;
      [|discriminate].
    destruct (schema_boolean (get_member (js "isError") ms)); [|discriminate].
    injection Hv as <-. cbn [sum_response]. now apply schema_string_Some.
  - intros config client.
    destruct (falsy_string (response_summary_agent_id config)
              || falsy_string (error_summary_agent_id config)) eqn:Hc.
    + unfold summarize_handler. rewrite Hc. constructor.
    + rewrite (summarize_handler_log _ _ _ _ Hc).
      destruct (sum_isError request) eqn:He.
      * rewrite (summary_request_error_branch _ _ _ _ He). cbn [app].
        constructor; [intros p o H; discriminate|].
        constructor; [intros p o H; discriminate|].
        destruct (indices_getMapping client (sum_index request)) as [m|e1];
          [|constructor].
        destruct (search client (sum_index request) 1) as [d|e2]; [|constructor].
        destruct (generateFieldContext m d) as [fields|e]; [|constructor].
        constructor; [|constructor].
        intros p o H. injection H as <- <-. reflexivity.
      * rewrite (summary_request_response_branch _ _ _ _ He). cbn [snd app].
        constructor; [|constructor].
        intros p o H. injection H as <- <-. reflexivity.
Qed.

End RouteProperties.

(** * Runs on the stubbed cluster *)

(** The example of the generate route: the agent answers with the escaped
    text, and the body has four spaces after [source]. *)
Lemma generate_ppl_example_run :
  run_generate stub_config (Returned (envelope [Some example_text_escaped]))
  = (Returned {| res_statusCode := 200;
                 res_body :=
                   Text (js "source    with span(x) and ticks and isnotnull(y)") |},
     [TransportRequest (ppl_request_params stub_prefix stub_config stub_generate_body)
        AGENT_REQUEST_OPTIONS]).
Proof.
  unfold run_generate.
  apply (generate_ppl_example stub_prefix stub_TypeError_message stub_SyntaxError_message
           stub_config (stub_client (Returned (envelope [Some example_text_escaped])))
           stub_generate_body [] (envelope [Some example_text_escaped])
           {| output := [stub_output (Some example_text_escaped)] |}
           (stub_output (Some example_text_escaped))
           example_text_escaped [(js "ppl", JString example_ppl)]);
    reflexivity.
Defined.

(** The body expected of the example, with two spaces after [source], is not
    what the handler returns: with CR and LF written as JSON escapes the
    body has four spaces, and with a raw CR and LF inside the string literal
    [JSON.parse] throws and the answer is 500. *)
Lemma generate_ppl_example_two_spaces_refuted :
  fst (run_generate stub_config (Returned (envelope [Some example_text_escaped])))
  <> Returned {| res_statusCode := 200;
                 res_body :=
                   Text (js "source  with span(x) and ticks and isnotnull(y)") |}
  /\ fst (run_generate stub_config (Returned (envelope [Some example_text_raw])))
     <> Returned {| res_statusCode := 200;
                    res_body :=
                      Text (js "source  with span(x) and ticks and isnotnull(y)") |}
  /\ fst (run_generate stub_config (Returned (envelope [Some example_text_escaped])))
     = Returned {| res_statusCode := 200;
                   res_body :=
                     Text (js "source    with span(x) and ticks and isnotnull(y)") |}
  /\ fst (run_generate stub_config (Returned (envelope [Some example_text_raw])))
     = Returned {| res_statusCode := 500;
                   res_body := Text (stub_SyntaxError_message example_text_raw) |}.
Proof.
  repeat split; try (vm_compute; reflexivity); vm_compute; discriminate.
Qed.

(** A query with [ISNOTNULL] in upper case, and one with [IsNotNull]. *)
Lemma generate_ppl_ISNOTNULL_upper_case_run :
  (exists returned u v,
      fst (run_generate stub_config
             (Returned (envelope [Some (json_text "{'ppl': 'where ISNOTNULL(y)'}")])))
      = Returned {| res_statusCode := 200; res_body := Text returned |}
      /\ returned = u ++ isnotnull ++ v
      /\ Forall2 span_lowered
           (filter not_backtick (replace re_ISNOTNULL isnotnull (js "where "))) u
      /\ Forall2 span_lowered
           (filter not_backtick (replace re_ISNOTNULL isnotnull (js "(y)"))) v)
  /\ (exists returned,
         fst (run_generate stub_config
                (Returned (envelope [Some (json_text "{'ppl': 'where IsNotNull(y)'}")])))
         = Returned {| res_statusCode := 200; res_body := Text returned |}
         /\ returned
            = replace re_SPAN span_paren
                (replace re_backtick []
                   (trim (replace re_cr_or_lf [SPACE] (js "where IsNotNull(y)"))))).
Proof.
  split.
  - destruct (generate_ppl_ISNOTNULL_upper_case stub_prefix stub_TypeError_message
                stub_SyntaxError_message stub_config
                (stub_client
                   (Returned (envelope [Some (json_text "{'ppl': 'where ISNOTNULL(y)'}")])))
                stub_generate_body []
                (envelope [Some (json_text "{'ppl': 'where ISNOTNULL(y)'}")])
                {| output := [stub_output (Some (json_text "{'ppl': 'where ISNOTNULL(y)'}"))] |}
                (stub_output (Some (json_text "{'ppl': 'where ISNOTNULL(y)'}")))
                (json_text "{'ppl': 'where ISNOTNULL(y)'}")
                (js "where ISNOTNULL(y)")
                [(js "ppl", JString (js "where ISNOTNULL(y)"))]
                eq_refl eq_refl eq_refl eq_refl eq_refl eq_refl eq_refl)
      as [returned [Hrun [Hupper _]]].
    destruct (Hupper (js "where ") (js "(y)") eq_refl) as [u [v [Hret [Hu Hv]]]].
    exists returned, u, v. unfold run_generate. rewrite Hrun. auto.
  - destruct (generate_ppl_ISNOTNULL_upper_case stub_prefix stub_TypeError_message
                stub_SyntaxError_message stub_config
                (stub_client
                   (Returned (envelope [Some (json_text "{'ppl': 'where IsNotNull(y)'}")])))
                stub_generate_body []
                (envelope [Some (json_text "{'ppl': 'where IsNotNull(y)'}")])
                {| output := [stub_output (Some (json_text "{'ppl': 'where IsNotNull(y)'}"))] |}
                (stub_output (Some (json_text "{'ppl': 'where IsNotNull(y)'}")))
                (json_text "{'ppl': 'where IsNotNull(y)'}")
                (js "where IsNotNull(y)")
                [(js "ppl", JString (js "where IsNotNull(y)"))]
                eq_refl eq_refl eq_refl eq_refl eq_refl eq_refl eq_refl)
      as [returned [Hrun [_ Hother]]].
    exists returned. unfold run_generate. rewrite Hrun. split; [reflexivity|].
    apply Hother. intros Ho. apply occurs_occursb in Ho. vm_compute in Ho. discriminate.
Defined.

(** [IsNotNull] in mixed case comes back as it went in: the body holds no
    [isnotnull]. *)
Lemma normalize_ppl_mixed_case_kept :
  trim (replace re_cr_or_lf [SPACE] (js "where IsNotNull(y)")) = js "where IsNotNull(y)"
  /\ fst (run_generate stub_config
            (Returned (envelope [Some (json_text "{'ppl': 'where IsNotNull(y)'}")])))
     = Returned {| res_statusCode := 200;
                   res_body := Text (js "where IsNotNull(y)") |}
  /\ ~ occurs isnotnull (js "where IsNotNull(y)").
Proof.
  split; [reflexivity|]. split; [reflexivity|].
  intros Ho. apply occurs_occursb in Ho. vm_compute in Ho. discriminate.
Qed.

(** A body whose [response] is a string is accepted, and the string goes to
    the agent serialized. *)
Lemma summarize_response_is_string_run :
  (exists ms,
      JObject [(js "index", JString (js "logs"));
               (js "question", JString (js "how many errors?"));
               (js "response", JString (js "{}"));
               (js "isError", JBool false)] = JObject ms
      /\ get_member (js "response") ms = Some (JString (js "{}")))
  /\ parse_text (JSON_stringify (js "{}")) = Parsed (JString (js "{}")) []
  /\ (forall (config : QueryAssistConfig) (client : OpenSearchClient unit unit),
         Forall (fun call =>
                   forall p o, call = TransportRequest p o ->
                     get_parameter "response" (parameters p)
                     = Some (Some (JSON_stringify (js "{}"))))
                (snd (summarize_handler stub_prefix stub_generateFieldContext
                        stub_TypeError_message config client
                        {| sum_index := js "logs";
                           sum_question := js "how many errors?";
                           sum_query := None;
                           sum_response := js "{}";
                           sum_isError := false |} []))).
Proof.
  apply (summarize_response_is_string stub_prefix stub_generateFieldContext
           stub_TypeError_message
           (JObject [(js "index", JString (js "logs"));
                     (js "question", JString (js "how many errors?"));
                     (js "response", JString (js "{}"));
                     (js "isError", JBool false)])
           {| sum_index := js "logs"; sum_question := js "how many errors?";
              sum_query := None; sum_response := js "{}"; sum_isError := false |}).
  reflexivity.
Defined.

(** A body whose [response] is an object, or a number, is refused by the
    schema of the route. *)
Lemma summarize_rejects_structured_response :
  validate_summarize
    (JObject [(js "index", JString (js "logs"));
              (js "question", JString (js "how many errors?"));
              (js "response", JObject [(js "total", JNumber (js "3"))]);
              (js "isError", JBool false)]) = None
  /\ validate_summarize
       (JObject [(js "index", JString (js "logs"));
                 (js "question", JString (js "how many errors?"));
                 (js "response", JNumber (js "3"));
                 (js "isError", JBool false)]) = None.
Proof. split; reflexivity. Qed.

(** No PPL agent in the configuration. *)
Lemma generate_ppl_unconfigured_run :
  run_generate {| ppl_agent_id := None;
                  response_summary_agent_id := Some (js "response-agent");
                  error_summary_agent_id := Some (js "error-agent") |}
    (Returned (envelope [Some example_text_escaped]))
  = (Returned {| res_statusCode := 400; res_body := Text PPL_AGENT_NOT_FOUND |}, []).
Proof.
  unfold run_generate.
  apply (generate_ppl_unconfigured stub_prefix stub_TypeError_message
           stub_SyntaxError_message).
  reflexivity.
Defined.



(** An envelope whose first output has no result. *)
Lemma generate_ppl_result_missing_run :
  run_generate stub_config (Returned (envelope [None]))
  = (Returned {| res_statusCode := 500;
                 res_body := Text (js "Generated PPL query not found.") |},
     [TransportRequest (ppl_request_params stub_prefix stub_config stub_generate_body)
        AGENT_REQUEST_OPTIONS]).
Proof.
  unfold run_generate.
  apply (generate_ppl_result_missing stub_prefix stub_TypeError_message
           stub_SyntaxError_message stub_config (stub_client (Returned (envelope [None])))
           stub_generate_body [] (envelope [None])
           {| output := [{| name := js "response"; result := None |}] |}
           {| name := js "response"; result := None |});
    reflexivity.
Defined.



(** An empty first result, on both routes. *)
Lemma empty_result_is_not_found_run :
  run_generate stub_config (Returned (envelope [Some []]))
  = (Returned {| res_statusCode := 500;
                 res_body := Text (js "Generated PPL query not found.") |},
     [TransportRequest (ppl_request_params stub_prefix stub_config stub_generate_body)
        AGENT_REQUEST_OPTIONS])
  /\ run_summarize stub_config (Returned (envelope [Some []])) false
     = (Returned {| res_statusCode := 500;
                    res_body := Text (js "Generated summary not found.") |},
        [TransportRequest
           (response_summary_params stub_prefix stub_config (stub_summarize_body false))
           AGENT_REQUEST_OPTIONS]).
Proof.
  destruct (empty_result_is_not_found stub_prefix stub_generateFieldContext
              stub_TypeError_message stub_SyntaxError_message stub_config
              (stub_client (Returned (envelope [Some []])))
              (envelope [Some []])
              {| output := [stub_output (Some [])] |}
              (stub_output (Some []))
              eq_refl eq_refl (or_intror eq_refl))
    as [Hg Hs].
  split.
  - apply (Hg stub_generate_body []); reflexivity.
  - apply (Hs (stub_summarize_body false) []); reflexivity.
Defined.


